(** * stock-picker: the dashboard's decision parser, loaders and analysis step,
      the push-notification tool and the structured-output records.

    Shallow embedding of [streamlit_app.py], [stock_picker/crew.py] and
    [stock_picker/tools/push_notification.py].

    Texts are [string]s whose characters are the code points below 256;
    on that range the built-in [str] methods used by the code are modelled
    in [Module Str] exactly as CPython defines them. *)

From Stdlib Require Import Bool Arith Lia List NArith Ascii.
From Stdlib Require String.
From stdpp Require Import base option list strings gmap.
Import ListNotations.

Open Scope N_scope.
Open Scope nat_scope.

#[local] Arguments String.append !_ _ / : simpl nomatch.

(** ** Exceptions and the error monad *)

Inductive exn : Type :=
| IndexError
| AttributeError (attr : string)
| Exception (msg : string).

(** [str(e)], as the f-strings of the error messages print it. *)
Definition exn_str (e : exn) : string :=
  match e with
  | IndexError => "list index out of range"
  | AttributeError attr => "st.session_state has no attribute " +:+ attr
  | Exception msg => msg
  end.

Inductive result (A : Type) : Type :=
| Ok (a : A)
| Raise (e : exn).
Arguments Ok {A} a.
Arguments Raise {A} e.

#[export] Instance result_ret : MRet result := fun A a => Ok a.

#[export] Instance result_bind : MBind result := fun A B k r =>
  match r with
  | Ok a => k a
  | Raise e => Raise e
  end.

(** [l[i]] on a Python list. *)
Definition index {A} (l : list A) (i : nat) : result A :=
  match nth_error l i with
  | Some a => Ok a
  | None => Raise IndexError
  end.

(** ** Built-in [str] methods *)

Module Str.

(** [str.isspace] on one character (code points below 256). *)
Definition is_space (c : ascii) : bool :=
  let n := N_of_ascii c in
  ((9 <=? n) && (n <=? 13) || (28 <=? n) && (n <=? 32)
   || (n =? 133) || (n =? 160))%N.

(** [str.lower] on one character: A-Z and the Latin-1 capitals. *)
Definition lower_char (c : ascii) : ascii :=
  let n := N_of_ascii c in
  if ((65 <=? n) && (n <=? 90)
      || (192 <=? n) && (n <=? 222) && negb (n =? 215))%N
  then ascii_of_N (n + 32) else c.

Fixpoint lower (s : string) : string :=
  match s with
  | EmptyString => EmptyString
  | String c r => String (lower_char c) (lower r)
  end.

(** Truth value of a string: non-empty. *)
Definition truthy (s : string) : bool :=
  match s with
  | EmptyString => false
  | String _ _ => true
  end.

Fixpoint lstrip (s : string) : string :=
  match s with
  | EmptyString => EmptyString
  | String c r => if is_space c then lstrip r else s
  end.

Fixpoint rstrip (s : string) : string :=
  match s with
  | EmptyString => EmptyString
  | String c r =>
    let r' := rstrip r in
    if is_space c && negb (truthy r') then EmptyString else String c r'
  end.

Definition strip (s : string) : string := rstrip (lstrip s).

Definition startswith (p s : string) : bool := String.prefix p s.

Fixpoint drop (n : nat) (s : string) : string :=
  match n, s with
  | S m, String _ r => drop m r
  | _, _ => s
  end.

(** [sub in s]. *)
Fixpoint contains (sub s : string) : bool :=
  String.prefix sub s ||
  match s with
  | EmptyString => false
  | String _ r => contains sub r
  end.

(** [s.partition(sep)] when [sep] occurs: the text before and after its
    first occurrence. *)
Fixpoint partition (sep s : string) : option (string * string) :=
  if String.prefix sep s then Some (EmptyString, drop (String.length sep) s)
  else
    match s with
    | EmptyString => None
    | String c r =>
      match partition sep r with
      | Some (b, a) => Some (String c b, a)
      | None => None
      end
    end.

(** [s.split(sep, maxsplit)] for a non-empty [sep] and [maxsplit >= 0]:
    cut at the first occurrence, go on in the rest. *)
Fixpoint splitn (sep : string) (maxsplit : nat) (s : string) : list string :=
  match maxsplit with
  | O => [s]
  | S m =>
    match partition sep s with
    | Some (b, a) => b :: splitn sep m a
    | None => [s]
    end
  end.

(** [s.split(sep)]: no limit on the number of cuts. A non-empty [sep]
    occurs at most [len(s)] times. *)
Definition split (sep s : string) : list string :=
  splitn sep (String.length s) s.

(** [sep.join(l)]. *)
Definition join (sep : string) (l : list string) : string :=
  String.concat sep l.

(** [s.replace(old, new)] for a non-empty [old]: the pieces between the
    occurrences of [old], glued with [new]. *)
Definition replace (old new s : string) : string :=
  join new (split old s).

End Str.

(** ** The decision-text parser ([parse_text_decision], inside [main]) *)

Record rejected_company : Type := {
  name : string;
  reason : string
}.

Record parsed_decision : Type := {
  selected_company : string;
  selection_reason : string;
  rejected_companies : list rejected_company
}.

Definition newline : string := String (ascii_of_nat 10) EmptyString.

(** [lines = text.strip().split('\n')]. *)
Definition lines_of (text : string) : list string :=
  Str.split newline (Str.strip text).

(** [first_line = lines[0] if lines else '']. *)
Definition first_line_of (lines : list string) : result string :=
  match lines with
  | [] => Ok EmptyString
  | _ :: _ => index lines 0
  end.

(** Selected company, from the first line. *)
Definition extract_selected (first_line : string) : result string :=
  if Str.contains "chosen company" (Str.lower first_line) then
    let parts := Str.split " is " first_line in
    if 1 <? length parts then
      p ← index parts 1;
      Ok (Str.strip (Str.replace "." "" p))
    else Ok EmptyString
  else Ok EmptyString.

(** The first loop: collects [current_paragraph] up to the line that starts
    the list of companies not selected. *)
Fixpoint selection_paragraph (lines : list string)
    (current_paragraph : list string) : list string :=
  match lines with
  | [] => current_paragraph
  | l :: rest =>
    let line := Str.strip l in
    if Str.truthy line
       && negb (Str.startswith "The companies that were not selected" line)
    then selection_paragraph rest (current_paragraph ++ [line])
    else if Str.startswith "The companies that were not selected" line
    then current_paragraph
    else selection_paragraph rest current_paragraph
  end.

Definition selection_reason_of (lines : list string) : string :=
  let current_paragraph := selection_paragraph lines [] in
  if 1 <? length current_paragraph
  then Str.join " " (tl current_paragraph)
  else EmptyString.

(** State of the second loop. [current_company] is [None] until a header
    line is seen. *)
Record loop_state : Type := {
  in_rejected_section : bool;
  current_company : option string;
  current_reason : list string;
  rejected : list rejected_company
}.

Definition initial_loop_state : loop_state :=
  {| in_rejected_section := false;
     current_company := None;
     current_reason := [];
     rejected := [] |}.

(** [if current_company and current_reason: result[...].append({...})]. *)
Definition save_company (st : loop_state) : list rejected_company :=
  match current_company st with
  | Some c =>
    if Str.truthy c && negb (Nat.eqb (length (current_reason st)) 0)
    then rejected st ++ [{| name := c;
                            reason := Str.join " " (current_reason st) |}]
    else rejected st
  | None => rejected st
  end.

Definition company_truthy (c : option string) : bool :=
  match c with
  | Some s => Str.truthy s
  | None => false
  end.

Inductive control : Type := Next | Break.

(** One iteration of the second loop, on the raw line [l]. *)
Definition rejected_step (st : loop_state) (l : string)
    : result (loop_state * control) :=
  let line := Str.strip l in
  if Str.contains "companies that were not selected" (Str.lower line) then
    Ok ({| in_rejected_section := true;
           current_company := current_company st;
           current_reason := current_reason st;
           rejected := rejected st |}, Next)
  else if Str.startswith "Overall," line || Str.startswith "In conclusion" line
  then Ok (st, Break)
  else if in_rejected_section st && Str.truthy line then
    if Str.contains ":" line && negb (Str.startswith " " line) then
      let saved := save_company st in
      company ← index (Str.split ":" line) 0;
      first ← index (Str.splitn ":" 1 line) 1;
      Ok ({| in_rejected_section := in_rejected_section st;
             current_company := Some (Str.strip company);
             current_reason := [Str.strip first];
             rejected := saved |}, Next)
    else if company_truthy (current_company st) && Str.truthy line then
      Ok ({| in_rejected_section := in_rejected_section st;
             current_company := current_company st;
             current_reason := current_reason st ++ [line];
             rejected := rejected st |}, Next)
    else Ok (st, Next)
  else Ok (st, Next).

Fixpoint rejected_loop (lines : list string) (st : loop_state)
    : result loop_state :=
  match lines with
  | [] => Ok st
  | l :: rest =>
    r ← rejected_step st l;
    match r with
    | (st', Next) => rejected_loop rest st'
    | (st', Break) => Ok st'
    end
  end.

Definition parse_text_decision (text : string) : result parsed_decision :=
  let lines := lines_of text in
  first_line ← first_line_of lines;
  selected ← extract_selected first_line;
  let reason := selection_reason_of lines in
  st ← rejected_loop lines initial_loop_state;
  Ok {| selected_company := selected;
        selection_reason := reason;
        rejected_companies := save_company st |}.

(** Two lines of text. *)
Definition nl (a b : string) : string := a +:+ newline +:+ b.

(** ** The dashboard's world: session state, UI output, control flow *)

(** Values kept in [st.session_state]. *)
Inductive pyval : Type :=
| PNone
| PBool (b : bool)
| PStr (s : string).

Definition truthy (v : pyval) : bool :=
  match v with
  | PNone => false
  | PBool b => b
  | PStr s => Str.truthy s
  end.

(** What a run of the script does, in order: the calls to Streamlit, the
    blocking calls, and the readings of the cancel flag. *)
Inductive event : Type :=
| StWarning (body : string)
| StError (body : string)
| StInfo (body : string)
| StSubheader (body : string)
| StMarkdown (body : string) (unsafe_allow_html : bool)
| StMetric (label value : string)
| StWrite (body : string)
| StExpander (label : string)
| StColumns (spec : list nat)
| StSpinner (text : string)
| StProgress (value : nat)            (* progress_bar = st.progress(v) *)
| StEmpty                             (* status_text = st.empty() *)
| ProgressSet (value : nat)           (* progress_bar.progress(v) *)
| StatusText (body : string)          (* status_text.text(body) *)
| ProgressCleared                     (* progress_bar.empty() *)
| StatusCleared                       (* status_text.empty() *)
| StRerun                             (* st.rerun() *)
| Sleep (seconds : nat)               (* time.sleep(seconds) *)
| CancelCheck (cancelled : bool)      (* a checkpoint read the cancel flag *)
| KickoffCall (sector : string)       (* kickoff is entered *)
| KickoffDone (outcome : result string). (* kickoff returned or raised *)

Record World : Type := {
  session_state : gmap string pyval;
  trace : list event
}.

(** How a block of statements ends: normally, by [return], by an exception
    caught by [except Exception], or by [st.rerun()], whose exception is
    not an [Exception]. *)
Inductive completion (R A : Type) : Type :=
| Normal (a : A)
| Return (r : R)
| Throw (e : exn)
| Rerun.
Arguments Normal {R A} a.
Arguments Return {R A} r.
Arguments Throw {R A} e.
Arguments Rerun {R A}.

Definition M (R A : Type) : Type := World -> completion R A * World.

#[export] Instance M_ret {R} : MRet (M R) := fun A a w => (Normal a, w).

#[export] Instance M_bind {R} : MBind (M R) := fun A B k m w =>
  match m w with
  | (Normal a, w') => k a w'
  | (Return r, w') => (Return r, w')
  | (Throw e, w') => (Throw e, w')
  | (Rerun, w') => (Rerun, w')
  end.

Definition emit {R} (e : event) : M R unit := fun w =>
  (Normal tt, {| session_state := session_state w; trace := trace w ++ [e] |}).

Definition return_ {R A} (r : R) : M R A := fun w => (Return r, w).

(** A pure computation that may raise. *)
Definition lift {R A} (r : result A) : M R A := fun w =>
  match r with
  | Ok a => (Normal a, w)
  | Raise e => (Throw e, w)
  end.

(** [try: body / except Exception as e: handler]. *)
Definition try_except {R A} (body : M R A) (handler : exn -> M R A) : M R A :=
  fun w =>
    match body w with
    | (Throw e, w') => handler e w'
    | other => other
    end.

(** [try: ... except Exception as e: ... finally: final]: [final] runs
    however the rest ends, and wins when it does not end normally. *)
Definition try_except_finally {R A} (body : M R A) (handler : exn -> M R A)
    (final : M R unit) : M R A := fun w =>
  let '(c, w1) := try_except body handler w in
  match final w1 with
  | (Normal _, w2) => (c, w2)
  | (Return r, w2) => (Return r, w2)
  | (Throw e, w2) => (Throw e, w2)
  | (Rerun, w2) => (Rerun, w2)
  end.

(** Calling a function whose body is [body]: its [return] value, or [none]
    when the body falls off its end. *)
Definition call {R R' : Type} (body : M R unit) (none : R) : M R' R := fun w =>
  match body w with
  | (Normal _, w') => (Normal none, w')
  | (Return r, w') => (Normal r, w')
  | (Throw e, w') => (Throw e, w')
  | (Rerun, w') => (Rerun, w')
  end.

Fixpoint for_each {R A} (l : list A) (f : A -> M R unit) : M R unit :=
  match l with
  | [] => mret tt
  | x :: rest => f x;; for_each rest f
  end.

(** [st.session_state.k]. *)
Definition get_attr {R} (k : string) : M R pyval := fun w =>
  match session_state w !! k with
  | Some v => (Normal v, w)
  | None => (Throw (AttributeError k), w)
  end.

(** [st.session_state.get(k, d)]. *)
Definition get_default {R} (k : string) (d : pyval) : M R pyval := fun w =>
  (Normal (default d (session_state w !! k)), w).

(** [st.session_state.k = v]. *)
Definition set_attr {R} (k : string) (v : pyval) : M R unit := fun w =>
  (Normal tt, {| session_state := <[k := v]> (session_state w);
                 trace := trace w |}).

(** ** What the dashboard does not own *)

#[warnings="-register-all"]
Inductive json : Type :=
| JNull
| JBool (b : bool)
| JNumber (literal : string)
| JString (s : string)
| JArray (items : list json)
| JObject (members : list (string * json)).

(** One row of the per-date aggregation: [date], [avg_score], [task_count]. *)
Record row : Type := {
  date : string;
  avg_score : string;
  task_count : nat
}.

Definition dataframe : Type := list row.

(** [df.empty]. *)
Definition df_empty (df : dataframe) : bool :=
  match df with
  | [] => true
  | _ :: _ => false
  end.

Record figure : Type := {
  fig_data : dataframe;
  fig_x : string;
  fig_y : string;
  fig_title : string;
  fig_line_shape : string;
  fig_height : option nat
}.

Inductive blocking : Type :=
| Sleeping (seconds : nat)
| KickingOff (sector : string).

(** The file system, the database, the chart library, the agent framework
    and whatever else touches the session while the script is blocked.
    Each call gives its value or the exception it raises. *)
Record Env : Type := {
  (** [Path(p).exists()] *)
  path_exists : string -> result bool;
  (** [open(p, 'r')], reading it all, closing it *)
  open_read : string -> result string;
  (** the decoder of [json.load]; [null] becomes [None], here [JNull] *)
  json_decode : string -> result json;
  (** [sqlite3.connect(p)] *)
  sqlite_connect : string -> result unit;
  (** [pd.read_sql_query(query, conn)] *)
  read_sql_query : string -> result dataframe;
  (** [conn.close()] *)
  conn_close : result unit;
  (** [px.line(df, x=, y=, title=, line_shape=)] *)
  px_line : dataframe -> string -> string -> string -> string -> result figure;
  (** [fig.update_layout(height=)]: the figure after the update *)
  update_layout : figure -> nat -> result figure;
  (** [StockPicker().crew().kickoff(inputs={'sector': s})], then [.raw] *)
  kickoff : string -> result string;
  (** the session state after a blocking call made in a given world *)
  during : blocking -> World -> gmap string pyval
}.

(** ** [load_json_file], [load_markdown_file], [create_performance_chart] *)

Definition load_json_file {R} (env : Env) (filepath : string) : M R json :=
  call
    (try_except
       (ex ← lift (path_exists env filepath);
        if ex : bool then
          text ← lift (open_read env filepath);
          v ← lift (json_decode env text);
          return_ v
        else mret tt)
       (fun e =>
          emit (StError ("Error loading " +:+ filepath +:+ ": " +:+ exn_str e)));;
     return_ JNull)
    JNull.

Definition load_markdown_file {R} (env : Env) (filepath : string)
    : M R (option string) :=
  call
    (try_except
       (ex ← lift (path_exists env filepath);
        if ex : bool then
          text ← lift (open_read env filepath);
          return_ (Some text)
        else mret tt)
       (fun e =>
          emit (StError ("Error loading " +:+ filepath +:+ ": " +:+ exn_str e)));;
     return_ None)
    None.

Definition db_path : string := "memory/long_term_memory_storage.db".

(** The aggregation: average score and task count per date, by date. *)
Definition performance_query : string :=
  "SELECT DATE(datetime, 'unixepoch') as date, AVG(score) as avg_score, COUNT(*) as task_count FROM long_term_memories GROUP BY DATE(datetime, 'unixepoch') ORDER BY date".

Definition create_performance_chart {R} (env : Env) : M R (option figure) :=
  call
    (try_except
       (ex ← lift (path_exists env db_path);
        if negb ex then return_ None
        else
          lift (sqlite_connect env db_path);;
          df ← lift (read_sql_query env performance_query);
          lift (conn_close env);;
          if negb (df_empty df) then
            fig ← lift (px_line env df "date" "avg_score"
                          "Task Performance Over Time" "spline");
            fig' ← lift (update_layout env fig 400);
            return_ (Some fig')
          else mret tt)
       (fun e => emit (StError ("Error creating chart: " +:+ exn_str e)));;
     return_ None)
    None.

(** ** The analysis step of [main] *)

Definition st_warning {R} (body : string) : M R unit := emit (StWarning body).
Definition st_error {R} (body : string) : M R unit := emit (StError body).

(** [time.sleep(n)]: the script is blocked, the session may change. *)
Definition sleep {R} (env : Env) (seconds : nat) : M R unit := fun w =>
  (Normal tt, {| session_state := during env (Sleeping seconds) w;
                 trace := trace w ++ [Sleep seconds] |}).

(** [StockPicker().crew().kickoff(inputs=inputs)]: a blocking call; it ends
    when the framework returns or raises. *)
Definition crew_kickoff {R} (env : Env) (sector : string) : M R string :=
  fun w =>
    let called := {| session_state := session_state w;
                     trace := trace w ++ [KickoffCall sector] |} in
    let outcome := kickoff env sector in
    let done := {| session_state := during env (KickingOff sector) called;
                   trace := trace called ++ [KickoffDone outcome] |} in
    match outcome with
    | Ok raw => (Normal raw, done)
    | Raise e => (Throw e, done)
    end.

(** [st.session_state.get('cancel_analysis', False)], as a condition. *)
Definition cancel_requested {R} : M R bool := fun w =>
  let cancelled :=
    truthy (default (PBool false) (session_state w !! "cancel_analysis")) in
  (Normal cancelled, {| session_state := session_state w;
                        trace := trace w ++ [CancelCheck cancelled] |}).

Definition cancelled_warning : string := "⚠️ Analysis was cancelled".

(** A checkpoint: [if ...get('cancel_analysis', False): st.warning(...); return]. *)
Definition checkpoint : M unit unit :=
  cancelled ← cancel_requested;
  if cancelled : bool then st_warning cancelled_warning;; return_ tt
  else mret tt.

(** The body of the [try]. *)
Definition analysis_body (env : Env) (selected_sector : string) : M unit unit :=
  checkpoint;;
  emit (StatusText "🔍 Finding trending companies...");;
  emit (ProgressSet 25);;
  sleep env 1;;
  checkpoint;;
  emit (StatusText "🔬 Conducting financial research...");;
  emit (ProgressSet 50);;
  sleep env 1;;
  checkpoint;;
  emit (StatusText "💰 Making investment decision...");;
  emit (ProgressSet 75);;
  sleep env 1;;
  checkpoint;;
  raw ← crew_kickoff env selected_sector;
  checkpoint;;
  emit (ProgressSet 100);;
  emit (StatusText "✅ Analysis completed!");;
  sleep env 1;;
  set_attr "last_result" (PStr raw);;
  set_attr "last_analysis_sector" (PStr selected_sector);;
  set_attr "analysis_completed" (PBool true).

(** [st.rerun()]: ends the run of the script. *)
Definition st_rerun {R A} : M R A := fun w =>
  (Rerun, {| session_state := session_state w;
             trace := trace w ++ [StRerun] |}).

(** The [finally] block. *)
Definition analysis_finally : M unit unit :=
  set_attr "analysis_running" (PBool false);;
  set_attr "cancel_analysis" (PBool false);;
  emit ProgressCleared;;
  emit StatusCleared;;
  st_rerun.

(** [if st.session_state.analysis_running and not ...get('cancel_analysis',
    False): with st.spinner(...): ... try/except/finally]. *)
Definition analysis_step (env : Env) (selected_sector : string) : M unit unit :=
  running ← get_attr "analysis_running";
  if truthy running then
    cancel ← get_default "cancel_analysis" (PBool false);
    if negb (truthy cancel) then
      emit (StSpinner "🔄 AI agents are working...");;
      emit (StProgress 0);;
      emit StEmpty;;
      try_except_finally
        (analysis_body env selected_sector)
        (fun e => st_error ("❌ Error during analysis: " +:+ exn_str e))
        analysis_finally
    else mret tt
  else mret tt.

(** The events of one run of the analysis step, from a session [ss]. *)
Definition run_trace (env : Env) (selected_sector : string)
    (ss : gmap string pyval) : list event :=
  trace (snd (analysis_step env selected_sector
                {| session_state := ss; trace := [] |})).

(** ** The decision section of the results tab *)

Definition dq : string := String (ascii_of_nat 34) EmptyString.

Definition success_card : string :=
  nl ""
 (nl ("                <div class=" +:+ dq +:+ "success-card" +:+ dq +:+ ">")
 (nl "                    <h3>🏆 Selected Investment</h3>"
 (nl "                </div>"
     "                "))).

Definition no_decision_yet : string :=
  "💡 No investment decision available yet. Run an analysis first!".

(** [parse_text_decision(decision)], as [main] calls it. *)
Definition parse_call (text : string) : M unit parsed_decision :=
  lift (parse_text_decision text).

(** [if decision: ... else: st.info(...)], with [decision] as
    [load_markdown_file] returned it. *)
Definition render_decision (decision : option string) : M unit unit :=
  match decision with
  | Some text =>
    if Str.truthy text then
      emit (StSubheader "💰 Investment Decision");;
      parsed ← parse_call text;
      if Str.truthy (selected_company parsed) then
        emit (StMarkdown success_card true);;
        emit (StColumns [1; 2]);;
        emit (StMetric "Company" (selected_company parsed));;
        emit (StWrite "**Investment Rationale:**");;
        emit (StWrite (selection_reason parsed));;
        match rejected_companies parsed with
        | [] => mret tt
        | _ :: _ =>
          emit (StMarkdown "---" false);;
          emit (StMarkdown "**🚫 Companies Not Selected:**" false);;
          for_each (rejected_companies parsed) (fun company =>
            emit (StExpander ("❌ " +:+ name company));;
            emit (StWrite (reason company)))
        end
      else emit (StMarkdown text false)
    else emit (StInfo no_decision_yet)
  | None => emit (StInfo no_decision_yet)
  end.

(** ** [PushNotificationTool] *)

Module PushNotificationTool.











End PushNotificationTool.

(** ** The structured-output models of [crew.py] *)

Module Crew.

(** A field's annotation. *)
#[warnings="-register-all"]
Inductive annotation : Type :=
| Tstr
| TList (item : annotation)
| TModel (class_name : string) (fields : list (string * annotation)).

Definition TrendingCompany : annotation :=
  TModel "TrendingCompany"
    [("name", Tstr); ("ticker", Tstr); ("reason", Tstr)].

Definition TrendingCompanyList : annotation :=
  TModel "TrendingCompanyList" [("companies", TList TrendingCompany)].

Definition TrendingCompanyResearch : annotation :=
  TModel "TrendingCompanyResearch"
    [("name", Tstr); ("market_position", Tstr);
     ("future_outlook", Tstr); ("investment_potential", Tstr)].

Definition TrendingCompanyResearchList : annotation :=
  TModel "TrendingCompanyResearchList"
    [("reports", TList TrendingCompanyResearch)].

Definition fields_of (a : annotation) : list (string * annotation) :=
  match a with
  | TModel _ fields => fields
  | _ => []
  end.

Definition field_names (a : annotation) : list string :=
  map fst (fields_of a).

Definition is_str (a : annotation) : bool :=
  match a with
  | Tstr => true
  | _ => false
  end.

(** A record of string fields only, with these names in this order. *)
Definition flat_record (a : annotation) (names : list string) : Prop :=
  field_names a = names /\ forallb is_str (map snd (fields_of a)) = true.

(** A model with one field, a list of [item]. *)
Definition list_of (a item : annotation) : Prop :=
  exists field, fields_of a = [(field, TList item)].

End Crew.

(** ** Vocabulary of the statements *)

(** The first line the parser looks at: the first line of the stripped text. *)
Definition first_line (text : string) : string :=
  hd EmptyString (lines_of text).

(** The text after the first occurrence of [sep] in [s]. *)
Definition after_first (sep s : string) : string :=
  match Str.partition sep s with
  | Some (_, a) => a
  | None => EmptyString
  end.

(** The text between the first occurrence of [sep] in [s] and the next one,
    up to the end of [s] when there is no other. *)
Definition between_first_two (sep s : string) : string :=
  let a := after_first sep s in
  match Str.partition sep a with
  | Some (b, _) => b
  | None => a
  end.

(** [s] without the character [c]. *)
Fixpoint remove_char (c : ascii) (s : string) : string :=
  match s with
  | EmptyString => EmptyString
  | String d r =>
    if Ascii.eqb c d then remove_char c r else String d (remove_char c r)
  end.

Definition dot : ascii := ascii_of_nat 46.

(** A line that mentions the companies not selected. *)
Definition mentions_not_selected (line : string) : bool :=
  Str.contains "companies that were not selected" (Str.lower line).

(** A line that starts the closing remarks. *)
Definition closing (line : string) : bool :=
  Str.startswith "Overall," line || Str.startswith "In conclusion" line.

(** A line that ends the entry of the company before it: a closing line
    or a line with a [':'], when it does not mention the companies not
    selected. *)
Definition ends_entry (line : string) : bool :=
  negb (mentions_not_selected line)
  && (closing line || Str.contains ":" line).

(** A line that goes on with the reason of the company before it: not
    empty, and not one that mentions the companies not selected. *)
Definition continuation (line : string) : bool :=
  Str.truthy line && negb (mentions_not_selected line).

(** Line [i] of [raw] is a header line of the rejected section: it has a
    [':'], with [b] before the first one and [a] after it, and does not
    mention the companies not selected; a line before it mentions them,
    and no line up to it is a closing line that does not mention them. *)
Definition header_at (raw : list string) (i : nat) (b a : string) : Prop :=
  exists l,
    raw !! i = Some l /\
    Str.contains ":" (Str.strip l) = true /\
    mentions_not_selected (Str.strip l) = false /\
    Str.partition ":" (Str.strip l) = Some (b, a) /\
    (exists j lj, j < i /\ raw !! j = Some lj /\
                  mentions_not_selected (Str.strip lj) = true) /\
    (forall k lk, k <= i -> raw !! k = Some lk ->
                  closing (Str.strip lk) = true ->
                  mentions_not_selected (Str.strip lk) = true).

(** The lines of [raw] after line [i] and before line [j], stripped. *)
Definition lines_between (raw : list string) (i j : nat) : list string :=
  map Str.strip (take (j - S i) (drop (S i) raw)).

(** The entry [e] comes from the header line [i] and the lines up to
    line [j]: its name is what stands before the first [':'] of line [i],
    stripped; none of the lines between [i] and [j] ends the entry; its
    reason is what stands after that [':'], stripped, joined by single
    spaces with the continuation lines among them. *)
Definition entry_from (raw : list string) (e : rejected_company)
    (i j : nat) : Prop :=
  exists b a,
    header_at raw i b a /\
    name e = Str.strip b /\
    i < j /\
    Forall (fun s => ends_entry s = false) (lines_between raw i j) /\
    reason e =
      Str.join " "
        (Str.strip a :: List.filter continuation (lines_between raw i j)).

(** ... and line [j] is where the entry ends: the next line that ends an
    entry, or the end of the text. *)
Definition entry_ok (raw : list string) (e : rejected_company) : Prop :=
  name e <> EmptyString /\
  exists i j,
    entry_from raw e i j /\
    (j = length raw \/
     exists lj, raw !! j = Some lj /\ ends_entry (Str.strip lj) = true).

(** An entry whose end is a line of [raw]. *)
Definition entry_closed (raw : list string) (e : rejected_company) : Prop :=
  name e <> EmptyString /\
  exists i j lj,
    entry_from raw e i j /\
    raw !! j = Some lj /\ ends_entry (Str.strip lj) = true.

(** The current company [c] and its [reasons] follow a header line of
    [pre] and the lines after it. *)
Definition tracks (pre : list string) (c : string) (reasons : list string)
    : Prop :=
  exists i b a,
    header_at pre i b a /\
    c = Str.strip b /\
    Forall (fun s => ends_entry s = false) (map Str.strip (drop (S i) pre)) /\
    (Str.truthy c = true ->
     reasons =
       Str.strip a
       :: List.filter continuation (map Str.strip (drop (S i) pre))).

(** What the second loop keeps true of the lines [pre] it has gone through. *)
Record loop_inv (pre : list string) (st : loop_state) : Prop := {
  inv_section :
    in_rejected_section st = true ->
    exists j lj, pre !! j = Some lj /\
                 mentions_not_selected (Str.strip lj) = true;
  inv_open :
    forall k lk, pre !! k = Some lk -> closing (Str.strip lk) = true ->
                 mentions_not_selected (Str.strip lk) = true;
  inv_saved : Forall (entry_closed pre) (rejected st);
  inv_current :
    forall c, current_company st = Some c ->
              in_rejected_section st = true /\
              tracks pre c (current_reason st)
}.

(** What C2 says of the events [tr] of a run: a checkpoint that finds the
    cancel flag set, with no kickoff before it, is followed by the warning
    and by the [finally] block only, and the run has no kickoff at all;
    a kickoff that is called is followed by its own end, with the outcome
    the framework gave. *)
Definition cancel_prop (env : Env) (tr : list event) : Prop :=
  (forall i,
     tr !! i = Some (CancelCheck true) ->
     (forall j s, j < i -> tr !! j <> Some (KickoffCall s)) ->
     (forall k s, tr !! k <> Some (KickoffCall s)) /\
     drop (S i) tr =
       [StWarning cancelled_warning; ProgressCleared; StatusCleared; StRerun])
  /\
  (forall i s,
     tr !! i = Some (KickoffCall s) ->
     tr !! S i = Some (KickoffDone (kickoff env s))).

(** [w] after [st.error(body)]. *)
Definition with_error (w : World) (body : string) : World :=
  {| session_state := session_state w; trace := trace w ++ [StError body] |}.

Definition loading_error (filepath : string) (e : exn) : string :=
  "Error loading " +:+ filepath +:+ ": " +:+ exn_str e.

Definition chart_error (e : exn) : string :=
  "Error creating chart: " +:+ exn_str e.

(** An environment with no file, no database and a framework that answers
    [raw]; [interfere] is what happens to the session during blocking
    calls. *)
Definition sample_env (raw : string)
    (interfere : blocking -> World -> gmap string pyval) : Env :=
  {| path_exists := fun _ => Ok false;
     open_read := fun _ => Raise (Exception "No such file or directory");
     json_decode := fun _ => Raise (Exception "Expecting value");
     sqlite_connect := fun _ => Ok tt;
     read_sql_query := fun _ => Ok [];
     conn_close := Ok tt;
     px_line := fun df x y title shape =>
       Ok {| fig_data := df; fig_x := x; fig_y := y; fig_title := title;
             fig_line_shape := shape; fig_height := None |};
     update_layout := fun fig h =>
       Ok {| fig_data := fig_data fig; fig_x := fig_x fig; fig_y := fig_y fig;
             fig_title := fig_title fig;
             fig_line_shape := fig_line_shape fig; fig_height := Some h |};
     kickoff := fun _ => Ok raw;
     during := interfere |}.

(** The user's cancel arrives while the script sleeps. *)
Definition cancel_while_sleeping (b : blocking) (w : World)
    : gmap string pyval :=
  match b with
  | Sleeping _ => <["cancel_analysis" := PBool true]> (session_state w)
  | KickingOff _ => session_state w
  end.

(** The user's cancel arrives while the framework runs. *)
Definition cancel_during_kickoff (b : blocking) (w : World)
    : gmap string pyval :=
  match b with
  | Sleeping _ => session_state w
  | KickingOff _ => <["cancel_analysis" := PBool true]> (session_state w)
  end.

Definition running_session : gmap string pyval :=
  <["analysis_running" := PBool true]> ∅.

Definition empty_world : World := {| session_state := ∅; trace := [] |}.

Definition empty_decision : parsed_decision :=
  {| selected_company := EmptyString;
     selection_reason := EmptyString;
     rejected_companies := [] |}.

(** The spec's data model: record names with their fields. *)
Definition spec_TrendingCompany : list string := ["name"; "ticker"; "reason"].
Definition spec_TrendingCompanyResearch : list string :=
  ["name"; "market_position"; "future_outlook"; "investment_potential"].

(** ** Vocabulary of the further statements *)

(** Only whitespace. *)
Fixpoint all_space (s : string) : bool :=
  match s with
  | EmptyString => true
  | String c r => Str.is_space c && all_space r
  end.

Definition not_selected_prefix : string := "The companies that were not selected".

(** The lines before the first one that, stripped, starts with
    'The companies that were not selected'. *)
Fixpoint before_marker (lines : list string) : list string :=
  match lines with
  | [] => []
  | l :: rest =>
    if Str.startswith not_selected_prefix (Str.strip l) then []
    else l :: before_marker rest
  end.

(** Those lines stripped, the empty ones left out. *)
Definition paragraph_lines (lines : list string) : list string :=
  List.filter Str.truthy (map Str.strip (before_marker lines)).

(** [a] occurs in [s]. *)
Definition substring_of (a s : string) : Prop :=
  exists x y, s = x +:+ a +:+ y.

(** What a header line [l] stands for: the stripped texts before and after
    its first [':']. *)
Definition header_entry (l : string) : rejected_company :=
  match Str.partition ":" (Str.strip l) with
  | Some (b, a) => {| name := Str.strip b; reason := Str.strip a |}
  | None => {| name := EmptyString; reason := EmptyString |}
  end.

(** A line of the rejected section that starts a company: it has a [':']
    with something before it, does not mention the companies not selected
    and is not a closing line. *)
Definition plain_header (l : string) : bool :=
  Str.contains ":" (Str.strip l)
  && Str.truthy (name (header_entry l))
  && negb (mentions_not_selected (Str.strip l))
  && negb (closing (Str.strip l)).

(** A line that leaves the second loop where it is before the section:
    it neither mentions the companies not selected nor closes. *)
Definition plain_line (l : string) : bool :=
  negb (mentions_not_selected (Str.strip l)) && negb (closing (Str.strip l)).

(** ** The session state and the buttons of the execution section *)

(** [if k not in st.session_state: st.session_state.k = v]. *)
Definition set_default {R} (k : string) (v : pyval) : M R unit := fun w =>
  match session_state w !! k with
  | Some _ => (Normal tt, w)
  | None => set_attr k v w
  end.

(** "Initialize session state for analysis". *)
Definition init_session_state {R} : M R unit :=
  set_default "analysis_running" (PBool false);;
  set_default "cancel_analysis" (PBool false);;
  set_default "analysis_completed" (PBool false);;
  set_default "last_analysis_sector" PNone.

Definition session_defaults : gmap string pyval :=
  {[ "analysis_running" := PBool false ]} ∪
  ({[ "cancel_analysis" := PBool false ]} ∪
  ({[ "analysis_completed" := PBool false ]} ∪
   {[ "last_analysis_sector" := PNone ]})).

Definition start_label : string := "🚀 Start Analysis".
Definition cancel_label : string := "🛑 Cancel".
Definition in_progress : string :=
  "🔄 Analysis in progress... Please wait for completion.".
Definition cancelled_by_user : string := "⚠️ Analysis cancelled by user".

(** "Show start button or cancel button based on state". [clicked label]
    is what [st.button(label, ...)] returns in this run of the script;
    drawing the button leaves no event. *)
Definition controls (clicked : string -> bool) : M unit unit :=
  analysis_disabled ← get_attr "analysis_running";
  if negb (truthy analysis_disabled) then
    if clicked start_label then
      set_attr "analysis_running" (PBool true);;
      set_attr "cancel_analysis" (PBool false);;
      st_rerun
    else mret tt
  else
    emit (StColumns [3; 1]);;
    emit (StInfo in_progress);;
    if clicked cancel_label then
      set_attr "cancel_analysis" (PBool true);;
      set_attr "analysis_running" (PBool false);;
      st_warning cancelled_by_user;;
      st_rerun
    else mret tt.

(** The execution section of the first tab, from the initialisation of the
    session state to the end of the analysis step. *)
Definition execution_section (clicked : string -> bool) (env : Env)
    (selected_sector : string) : M unit unit :=
  init_session_state;;
  controls clicked;;
  analysis_step env selected_sector.

(** Nothing touches the session while the script is blocked. *)
Definition quiet (env : Env) : Prop :=
  forall b w, during env b w = session_state w.

(** An environment whose framework raises [e], and that leaves the session
    alone. *)
Definition failing_env (e : exn) : Env :=
  let base := sample_env EmptyString (fun _ w => session_state w) in
  {| path_exists := path_exists base;
     open_read := open_read base;
     json_decode := json_decode base;
     sqlite_connect := sqlite_connect base;
     read_sql_query := read_sql_query base;
     conn_close := conn_close base;
     px_line := px_line base;
     update_layout := update_layout base;
     kickoff := fun _ => Raise e;
     during := during base |}.

Definition fresh (ss : gmap string pyval) : World :=
  {| session_state := ss; trace := [] |}.

(** The events of a run of the analysis step that reaches the kickoff. *)
Definition events_to_kickoff (selected_sector : string) : list event :=
  [StSpinner "🔄 AI agents are working..."; StProgress 0; StEmpty;
   CancelCheck false; StatusText "🔍 Finding trending companies...";
   ProgressSet 25; Sleep 1;
   CancelCheck false; StatusText "🔬 Conducting financial research...";
   ProgressSet 50; Sleep 1;
   CancelCheck false; StatusText "💰 Making investment decision...";
   ProgressSet 75; Sleep 1;
   CancelCheck false; KickoffCall selected_sector].

Definition events_after_success (raw : string) : list event :=
  [KickoffDone (Ok raw); CancelCheck false; ProgressSet 100;
   StatusText "✅ Analysis completed!"; Sleep 1;
   ProgressCleared; StatusCleared; StRerun].

Definition events_after_failure (e : exn) : list event :=
  [KickoffDone (Raise e);
   StError ("❌ Error during analysis: " +:+ exn_str e);
   ProgressCleared; StatusCleared; StRerun].

(** The session after the [finally] block. *)
Definition reset_flags (ss : gmap string pyval) : gmap string pyval :=
  <["cancel_analysis" := PBool false]>
    (<["analysis_running" := PBool false]> ss).

(** The session after a successful analysis, before the [finally] block. *)
Definition store_result (raw sector : string) (ss : gmap string pyval)
    : gmap string pyval :=
  <["analysis_completed" := PBool true]>
    (<["last_analysis_sector" := PStr sector]>
      (<["last_result" := PStr raw]> ss)).

(** The session after a click on Start, from the session [ss]: the
    defaults for the missing keys, then the two assignments. *)
Definition after_start (ss : gmap string pyval) : gmap string pyval :=
  <["cancel_analysis" := PBool false]>
    (<["analysis_running" := PBool true]> (ss ∪ session_defaults)).

(** The step is triggered in the session [ss]. *)
Definition triggered (ss : gmap string pyval) : bool :=
  match ss !! "analysis_running" with
  | Some v =>
    truthy v && negb (truthy (default (PBool false) (ss !! "cancel_analysis")))
  | None => false
  end.

(** What the decision section shows for a parsed decision. *)
Definition decision_events (text : string) (p : parsed_decision)
    : list event :=
  [StSubheader "💰 Investment Decision";
   StMarkdown success_card true;
   StColumns [1; 2];
   StMetric "Company" (selected_company p);
   StWrite "**Investment Rationale:**";
   StWrite (selection_reason p)] ++
  match rejected_companies p with
  | [] => []
  | _ :: _ =>
    [StMarkdown "---" false;
     StMarkdown "**🚫 Companies Not Selected:**" false] ++
    flat_map (fun c => [StExpander ("❌ " +:+ name c); StWrite (reason c)])
      (rejected_companies p)
  end.

(** * Proofs *)

(** ** The [str] methods and the parser on concrete texts *)

Example split_twice : Str.split " is " "a is b is c" = ["a"; "b"; "c"].
Proof. reflexivity. Qed.

Example split_overlap : Str.split " is " " is is " = [EmptyString; "is "].
Proof. reflexivity. Qed.

Example split_once : Str.splitn ":" 1 "Foo: a: b" = ["Foo"; " a: b"].
Proof. reflexivity. Qed.

Example strip_inner : Str.strip (nl "  Baker  Hughes " " ") = "Baker  Hughes".
Proof. reflexivity. Qed.

Example lower_mixed : Str.lower "The CHOSEN Company" = "the chosen company".
Proof. reflexivity. Qed.

Example replace_dots : Str.replace "." EmptyString "U.S. Steel Corp." = "US Steel Corp".
Proof. reflexivity. Qed.

Example parse_report :
  parse_text_decision
    (nl "The Chosen Company for investment is Baker Hughes Co. "
    (nl "It is strong." (nl " and cheap" (nl EmptyString
    (nl "The companies that were not selected:"
    (nl "Foo Inc: too risky" (nl "really" (nl "Bar:" (nl ": x" (nl "y"
    (nl "Overall, fine" "Baz: no")))))))))))
  = Ok {| selected_company := "Baker Hughes Co";
          selection_reason := "It is strong. and cheap";
          rejected_companies :=
            [{| name := "Foo Inc"; reason := "too risky really" |};
             {| name := "Bar"; reason := EmptyString |}] |}.
Proof. reflexivity. Qed.

(** ** Facts about the [str] methods *)

Section StrFacts.

Lemma prefix_app (p s : string) :
  String.prefix p s = true -> s = p +:+ Str.drop (String.length p) s.
Proof.
  revert s; induction p as [|c p IH]; intros s H.
  - reflexivity.
  - destruct s as [|d s]; simpl in H; [discriminate|].
    destruct (ascii_dec c d) as [->|]; [|discriminate].
    simpl. f_equal. apply IH, H.
Qed.

Lemma app_prefix (p s : string) : String.prefix p (p +:+ s) = true.
Proof.
  induction p as [|c p IH]; simpl.
  - destruct s; reflexivity.
  - destruct (ascii_dec c c); [exact IH|congruence].
Qed.

Lemma app_length (a b : string) :
  String.length (a +:+ b) = String.length a + String.length b.
Proof. induction a as [|c a IH]; simpl; congruence. Qed.

Lemma partition_unfold (sep s : string) :
  Str.partition sep s =
  if String.prefix sep s
  then Some (EmptyString, Str.drop (String.length sep) s)
  else match s with
       | EmptyString => None
       | String c r =>
         match Str.partition sep r with
         | Some (b, a) => Some (String c b, a)
         | None => None
         end
       end.
Proof. destruct s; reflexivity. Qed.

Lemma contains_unfold (sub s : string) :
  Str.contains sub s =
  String.prefix sub s ||
  match s with
  | EmptyString => false
  | String _ r => Str.contains sub r
  end.
Proof. destruct s; reflexivity. Qed.

(** [partition] cuts [s] around an occurrence of [sep]. *)
Lemma partition_app (sep s b a : string) :
  Str.partition sep s = Some (b, a) -> s = b +:+ sep +:+ a.
Proof.
  revert b a; induction s as [|c s IH]; intros b a H;
    rewrite partition_unfold in H.
  - destruct (String.prefix sep "") eqn:E; [|discriminate].
    injection H as <- <-. apply (prefix_app _ _ E).
  - destruct (String.prefix sep (String c s)) eqn:E.
    + injection H as <- <-. apply (prefix_app _ _ E).
    + destruct (Str.partition sep s) as [[b' a']|]; [|discriminate].
      injection H as <- <-. simpl. f_equal. apply IH. reflexivity.
Qed.

(** ... and that occurrence is the first one: no cut of [s] around [sep]
    has a shorter text before it. *)
Lemma partition_first (sep s b a : string) :
  Str.partition sep s = Some (b, a) ->
  forall b' a', s = b' +:+ sep +:+ a' -> String.length b <= String.length b'.
Proof.
  revert b a; induction s as [|c s IH]; intros b a H b' a' Hs;
    rewrite partition_unfold in H.
  - destruct (String.prefix sep "") eqn:E; [|discriminate].
    injection H as <- <-. simpl. lia.
  - destruct (String.prefix sep (String c s)) eqn:E.
    + injection H as <- <-. simpl. lia.
    + destruct (Str.partition sep s) as [[b0 a0]|] eqn:P; [|discriminate].
      injection H as <- <-.
      destruct b' as [|d b'].
      * simpl in Hs. rewrite Hs, app_prefix in E. discriminate.
      * simpl in Hs. injection Hs as -> Hs. simpl.
        apply le_n_S. eapply IH; eauto.
Qed.

Lemma contains_app (sep b a : string) :
  Str.contains sep (b +:+ sep +:+ a) = true.
Proof.
  induction b as [|c b IH]; rewrite contains_unfold.
  - simpl. rewrite app_prefix. reflexivity.
  - simpl. rewrite IH. apply orb_true_r.
Qed.

(** [sep in s] holds exactly when [partition] finds an occurrence. *)
Lemma contains_partition (sep s : string) :
  Str.contains sep s = true <-> exists b a, Str.partition sep s = Some (b, a).
Proof.
  split.
  - induction s as [|c s IH];
      rewrite contains_unfold, partition_unfold; intros H.
    + destruct (String.prefix sep "") eqn:E; [eauto|discriminate].
    + destruct (String.prefix sep (String c s)) eqn:E; [eauto|].
      simpl in H. destruct (IH H) as (b & a & ->). eauto.
  - intros (b & a & H). rewrite (partition_app _ _ _ _ H).
    apply contains_app.
Qed.

Lemma contains_false_partition (sep s : string) :
  Str.contains sep s = false -> Str.partition sep s = None.
Proof.
  intros H. destruct (Str.partition sep s) as [[b a]|] eqn:P; [|reflexivity].
  assert (Str.contains sep s = true) by (apply contains_partition; eauto).
  congruence.
Qed.

Lemma partition_length (sep s b a : string) :
  Str.partition sep s = Some (b, a) ->
  String.length s = String.length b + String.length sep + String.length a.
Proof.
  intros H. rewrite (partition_app _ _ _ _ H) at 1.
  rewrite !app_length. lia.
Qed.

Lemma splitn_S (sep : string) (m : nat) (s : string) :
  Str.splitn sep (S m) s =
  match Str.partition sep s with
  | Some (b, a) => b :: Str.splitn sep m a
  | None => [s]
  end.
Proof. reflexivity. Qed.

Lemma partition_empty (sep : string) :
  0 < String.length sep -> Str.partition sep "" = None.
Proof. destruct sep; simpl; [lia|reflexivity]. Qed.

(** The limit [len(s)] of [split] is never reached: any larger limit
    gives the same pieces. *)
Lemma splitn_enough (sep : string) (n m : nat) (s : string) :
  0 < String.length sep -> String.length s <= n -> String.length s <= m ->
  Str.splitn sep n s = Str.splitn sep m s.
Proof.
  intros Hsep. revert m s; induction n as [|n IH]; intros m s Hn Hm.
  - destruct s; [|simpl in Hn; lia].
    destruct m; [reflexivity|].
    rewrite splitn_S, partition_empty by assumption. reflexivity.
  - destruct m as [|m].
    + destruct s; [|simpl in Hm; lia].
      rewrite splitn_S, partition_empty by assumption. reflexivity.
    + rewrite !splitn_S.
      destruct (Str.partition sep s) as [[b a]|] eqn:P; [|reflexivity].
      f_equal. pose proof (partition_length _ _ _ _ P).
      apply IH; lia.
Qed.

Lemma split_unfold (sep s : string) :
  0 < String.length sep ->
  Str.split sep s =
  match Str.partition sep s with
  | Some (b, a) => b :: Str.split sep a
  | None => [s]
  end.
Proof.
  intros Hsep. unfold Str.split.
  destruct (Str.partition sep s) as [[b a]|] eqn:P.
  - pose proof (partition_length _ _ _ _ P) as L.
    destruct (String.length s) as [|n] eqn:E; [lia|].
    rewrite splitn_S, P. f_equal. apply splitn_enough; lia.
  - destruct (String.length s); [reflexivity|].
    rewrite splitn_S, P. reflexivity.
Qed.

End StrFacts.

(** ** The parser returns *)

Section Totality.

Lemma bind_ok {A B} (a : A) (k : A -> result B) : (Ok a ≫= k) = k a.
Proof. reflexivity. Qed.

Lemma splitn_cons (sep : string) (n : nat) (s : string) :
  exists x xs, Str.splitn sep n s = x :: xs.
Proof.
  destruct n; [simpl; eauto|]. rewrite splitn_S.
  destruct (Str.partition sep s) as [[b a]|]; eauto.
Qed.

Lemma index_split_0 (sep s : string) :
  0 < String.length sep ->
  index (Str.split sep s) 0 =
  Ok match Str.partition sep s with
     | Some (b, _) => b
     | None => s
     end.
Proof.
  intros H. rewrite split_unfold by assumption.
  destruct (Str.partition sep s) as [[b a]|]; reflexivity.
Qed.

Lemma index_splitn_1 (sep s b a : string) :
  Str.partition sep s = Some (b, a) ->
  index (Str.splitn sep 1 s) 1 = Ok a.
Proof. intros H. rewrite splitn_S, H. reflexivity. Qed.

Lemma extract_selected_ok (first_line : string) :
  exists sel, extract_selected first_line = Ok sel.
Proof.
  unfold extract_selected.
  destruct (Str.contains _ (Str.lower first_line)); [|eauto].
  destruct (Str.split " is " first_line) as [|p0 [|p1 ps]]; simpl; eauto.
Qed.

Lemma rejected_step_ok (st : loop_state) (l : string) :
  exists st' c, rejected_step st l = Ok (st', c).
Proof.
  unfold rejected_step.
  destruct (Str.contains _ (Str.lower (Str.strip l))); [eauto|].
  destruct (_ || _); [eauto|].
  destruct (_ && _); [|eauto].
  destruct (Str.contains ":" (Str.strip l)) eqn:C; simpl.
  - destruct (negb _); simpl.
    + apply contains_partition in C. destruct C as (b & a & P).
      rewrite index_split_0 by (simpl; lia). rewrite bind_ok.
      rewrite P. simpl. eauto.
    + destruct (_ && _); eauto.
  - destruct (_ && _); eauto.
Qed.

Lemma rejected_loop_ok (lines : list string) (st : loop_state) :
  exists st', rejected_loop lines st = Ok st'.
Proof.
  revert st; induction lines as [|l rest IH]; intros st; simpl; [eauto|].
  destruct (rejected_step_ok st l) as (st' & c & ->). simpl.
  destruct c; eauto.
Qed.

Lemma first_line_of_ok (lines : list string) :
  first_line_of lines = Ok (hd EmptyString lines).
Proof. destruct lines; reflexivity. Qed.

Lemma strip_empty_lines (text : string) :
  Str.strip text = EmptyString -> lines_of text = [EmptyString].
Proof. unfold lines_of. intros ->. reflexivity. Qed.

Lemma parse_returns (text : string) :
  exists p, parse_text_decision text = Ok p.
Proof.
  unfold parse_text_decision. rewrite first_line_of_ok, bind_ok.
  destruct (extract_selected_ok (hd EmptyString (lines_of text)))
    as (sel & ->).
  rewrite bind_ok.
  destruct (rejected_loop_ok (lines_of text) initial_loop_state)
    as (st & ->).
  rewrite bind_ok. eauto.
Qed.

End Totality.

(** C9: [parse_text_decision] returns a result on every text, and on a text
    that is empty once stripped the result is the empty decision: no
    company, no reason, no rejected companies. *)
Theorem parse_text_decision_total :
  (forall text, exists p, parse_text_decision text = Ok p) /\
  (forall text, Str.strip text = EmptyString ->
                parse_text_decision text = Ok empty_decision).
Proof.
  split.
  - exact parse_returns.
  - intros text H. unfold parse_text_decision.
    rewrite (strip_empty_lines _ H). reflexivity.
Qed.

Lemma parse_text_decision_total_witness :
  Str.strip (nl " " "  ") = EmptyString /\
  parse_text_decision (nl " " "  ") = Ok empty_decision.
Proof.
  split; [reflexivity|].
  apply (proj2 parse_text_decision_total). reflexivity.
Defined.

(** ** The selected company *)

Section Selected.

Lemma prefix_empty (s : string) : String.prefix EmptyString s = true.
Proof. destruct s; reflexivity. Qed.

Lemma partition_char (c : ascii) (s : string) :
  match Str.partition (String c EmptyString) s with
  | Some (b, a) =>
    remove_char c b = b /\ remove_char c s = b +:+ remove_char c a
  | None => remove_char c s = s
  end.
Proof.
  induction s as [|d r IH]; rewrite partition_unfold.
  - reflexivity.
  - simpl String.prefix. destruct (ascii_dec c d) as [->|N].
    + rewrite prefix_empty. simpl. rewrite Ascii.eqb_refl. auto.
    + assert (E : Ascii.eqb c d = false) by (apply Ascii.eqb_neq; exact N).
      destruct (Str.partition (String c EmptyString) r) as [[b a]|];
        simpl; rewrite E.
      * destruct IH as [-> ->]. auto.
      * rewrite IH. reflexivity.
Qed.

Lemma concat_cons (sep x : string) (n : nat) (s : string) :
  String.concat EmptyString (x :: Str.splitn sep n s) =
  x +:+ String.concat EmptyString (Str.splitn sep n s).
Proof. destruct (splitn_cons sep n s) as (y & ys & ->). reflexivity. Qed.

Lemma join_splitn_char (c : ascii) (n : nat) (s : string) :
  String.length s <= n ->
  Str.join EmptyString (Str.splitn (String c EmptyString) n s) =
  remove_char c s.
Proof.
  unfold Str.join. revert s; induction n as [|n IH]; intros s H.
  - destruct s; [reflexivity|simpl in H; lia].
  - rewrite splitn_S. pose proof (partition_char c s) as P.
    destruct (Str.partition (String c EmptyString) s) as [[b a]|] eqn:E.
    + destruct P as [_ ->]. rewrite concat_cons. f_equal.
      apply IH. apply partition_length in E. simpl in E. lia.
    + simpl. symmetry. exact P.
Qed.

(** [s.replace('.', '')] is [s] without its dots. *)
Lemma replace_dot (s : string) :
  Str.replace "." EmptyString s = remove_char dot s.
Proof. unfold Str.replace, Str.split. apply join_splitn_char. lia. Qed.

Lemma extract_selected_spec (fl : string) :
  extract_selected fl =
  Ok (if Str.contains "chosen company" (Str.lower fl)
         && Str.contains " is " fl
      then Str.strip (remove_char dot (between_first_two " is " fl))
      else EmptyString).
Proof.
  unfold extract_selected, between_first_two, after_first.
  destruct (Str.contains "chosen company" (Str.lower fl)); [|reflexivity].
  rewrite andb_true_l.
  rewrite (split_unfold " is " fl) by (simpl; lia).
  destruct (Str.contains " is " fl) eqn:C.
  - apply contains_partition in C. destruct C as (b & a & P). rewrite P.
    rewrite (split_unfold " is " a) by (simpl; lia).
    destruct (Str.partition " is " a) as [[b' a']|];
      simpl; rewrite replace_dot; reflexivity.
  - rewrite (contains_false_partition _ _ C). reflexivity.
Qed.

Lemma parse_selected (text : string) (p : parsed_decision) :
  parse_text_decision text = Ok p ->
  extract_selected (first_line text) = Ok (selected_company p).
Proof.
  unfold parse_text_decision, first_line. rewrite first_line_of_ok, bind_ok.
  destruct (extract_selected _) as [sel|e]; [|discriminate].
  rewrite bind_ok.
  destruct (rejected_loop _ _) as [st|e]; [|discriminate].
  rewrite bind_ok. intros [= <-]. reflexivity.
Qed.

End Selected.

(** C1, as the code has it: when the first line of the stripped text
    contains 'chosen company' (in any case) and ' is ', the selected company
    is the text of that line between its first ' is ' and the next ' is '
    (up to the end of the line when there is no other), without its dots
    and stripped; otherwise it is the empty string. *)
Theorem selected_company_between_is (text : string) :
  exists p, parse_text_decision text = Ok p /\
    selected_company p =
    if Str.contains "chosen company" (Str.lower (first_line text))
       && Str.contains " is " (first_line text)
    then Str.strip (remove_char dot (between_first_two " is " (first_line text)))
    else EmptyString.
Proof.
  destruct (parse_returns text) as (p & H).
  exists p. split; [exact H|].
  apply parse_selected in H. rewrite extract_selected_spec in H.
  injection H as <-. reflexivity.
Qed.

(** C1 as stated fails on a first line with two ' is ': the selected company
    is not the whole text after the first ' is '. *)
Lemma selected_company_not_rest_of_line :
  let text := "The chosen company is X which is good" in
  Str.contains "chosen company" (Str.lower (first_line text)) = true /\
  Str.contains " is " (first_line text) = true /\
  Str.strip (remove_char dot (after_first " is " (first_line text)))
    = "X which is good" /\
  exists p, parse_text_decision text = Ok p /\
            selected_company p = "X which" /\
            selected_company p <>
            Str.strip (remove_char dot (after_first " is " (first_line text))).
Proof.
  repeat split; try reflexivity.
  eexists. split; [reflexivity|]. split; [reflexivity|]. discriminate.
Qed.

(** ** The rejected companies *)

Section Rejected.

Lemma lstrip_head (s : string) :
  match Str.lstrip s with
  | EmptyString => True
  | String c _ => Str.is_space c = false
  end.
Proof.
  induction s as [|c s IH]; simpl; [exact I|].
  destruct (Str.is_space c) eqn:E; [exact IH|exact E].
Qed.

(** A stripped line never starts with a space. *)
Lemma strip_not_indented (s : string) :
  Str.startswith " " (Str.strip s) = false.
Proof.
  unfold Str.strip, Str.startswith. pose proof (lstrip_head s) as H.
  destruct (Str.lstrip s) as [|c r]; [reflexivity|].
  assert (E : Str.rstrip (String c r) = String c (Str.rstrip r))
    by (simpl; rewrite H; reflexivity).
  rewrite E.
  change (String.prefix " " (String c (Str.rstrip r)))
    with (if ascii_dec " " c
          then String.prefix EmptyString (Str.rstrip r) else false).
  destruct (ascii_dec " " c) as [<-|]; [|reflexivity].
  vm_compute in H. discriminate H.
Qed.

Lemma header_at_app (pre post : list string) (i : nat) (b a : string) :
  header_at pre i b a -> header_at (pre ++ post) i b a.
Proof.
  intros (l & Hl & Hc & Hn & Hp & Hj & Hk).
  exists l.
  assert (Hi : i < length pre) by (eapply lookup_lt_Some; eauto).
  repeat split; auto.
  - apply lookup_app_l_Some; assumption.
  - destruct Hj as (j & lj & Hji & Hlj & M). exists j, lj.
    repeat split; auto. apply lookup_app_l_Some; assumption.
  - intros k lk Hki Hlk. rewrite lookup_app_l in Hlk by lia. eauto.
Qed.

Lemma header_at_lt (raw : list string) (i : nat) (b a : string) :
  header_at raw i b a -> i < length raw.
Proof. intros (l & Hl & _). eapply lookup_lt_Some; eauto. Qed.

(** The lines between [i] and [j] are those of any list that goes on
    after line [j - 1]. *)
Lemma lines_between_app (pre post : list string) (i j : nat) :
  i < j -> j <= length pre ->
  lines_between (pre ++ post) i j = lines_between pre i j.
Proof.
  intros Hij Hj. unfold lines_between. f_equal.
  rewrite drop_app_le by lia. apply take_app_le.
  rewrite length_drop. lia.
Qed.

Lemma lines_between_end (pre post : list string) (i : nat) :
  i < length pre ->
  lines_between (pre ++ post) i (length pre) = map Str.strip (drop (S i) pre).
Proof.
  intros Hi. rewrite lines_between_app by lia.
  unfold lines_between. f_equal. apply take_ge. rewrite length_drop. lia.
Qed.

Lemma entry_from_app (pre post : list string) (e : rejected_company)
    (i j : nat) :
  j <= length pre ->
  entry_from pre e i j -> entry_from (pre ++ post) e i j.
Proof.
  intros Hj (b & a & Hh & Hn & Hij & Hf & Hr). exists b, a.
  rewrite lines_between_app by assumption.
  repeat split; auto. apply header_at_app, Hh.
Qed.

Lemma entry_closed_app (pre post : list string) (e : rejected_company) :
  entry_closed pre e -> entry_closed (pre ++ post) e.
Proof.
  intros (N & i & j & lj & Hf & Hl & He). split; [assumption|].
  exists i, j, lj.
  assert (Hj : j < length pre) by (eapply lookup_lt_Some; eauto).
  split; [apply entry_from_app; [lia|assumption]|].
  split; [apply lookup_app_l_Some|]; assumption.
Qed.

Lemma entry_closed_ok (raw : list string) (e : rejected_company) :
  entry_closed raw e -> entry_ok raw e.
Proof.
  intros (N & i & j & lj & Hf & Hl & He). split; [assumption|].
  exists i, j. split; [assumption|]. right. eauto.
Qed.

Lemma open_snoc (pre : list string) (l : string) :
  (forall k lk, pre !! k = Some lk -> closing (Str.strip lk) = true ->
                mentions_not_selected (Str.strip lk) = true) ->
  (closing (Str.strip l) = true ->
   mentions_not_selected (Str.strip l) = true) ->
  forall k lk, (pre ++ [l]) !! k = Some lk ->
               closing (Str.strip lk) = true ->
               mentions_not_selected (Str.strip lk) = true.
Proof.
  intros Hpre Hl k lk Hk. apply lookup_app_Some in Hk.
  destruct Hk as [Hk|[_ Hk]]; [eauto|].
  apply list_lookup_singleton_Some in Hk. destruct Hk as [_ <-]. exact Hl.
Qed.

(** The current company goes on past a line that does not end its entry;
    its reasons take the line when it is a continuation line. *)
Lemma tracks_snoc (pre : list string) (c : string) (rs rs' : list string)
    (l : string) :
  tracks pre c rs ->
  ends_entry (Str.strip l) = false ->
  (Str.truthy c = true ->
   rs' = if continuation (Str.strip l) then rs ++ [Str.strip l] else rs) ->
  tracks (pre ++ [l]) c rs'.
Proof.
  intros (i & b & a & Hh & Hc & Hf & Hr) He Hrs'.
  exists i, b, a. pose proof (header_at_lt _ _ _ _ Hh) as Hi.
  rewrite drop_app_le by lia. rewrite map_app. simpl.
  split; [apply header_at_app, Hh|]. split; [assumption|]. split.
  - apply Forall_app. split; [assumption|]. constructor; [assumption|constructor].
  - intros T. rewrite (Hrs' T), (Hr T), List.filter_app. simpl.
    destruct (continuation (Str.strip l)); [reflexivity|].
    rewrite app_nil_r. reflexivity.
Qed.

(** The entry of the current company, when the lines gone through are
    followed by [rest]. *)
Lemma current_entry_from (pre rest : list string) (c : string)
    (rs : list string) :
  tracks pre c rs ->
  Str.truthy c = true ->
  exists i,
    entry_from (pre ++ rest) {| name := c; reason := Str.join " " rs |}
      i (length pre).
Proof.
  intros (i & b & a & Hh & Hc & Hf & Hr) T. exists i, b, a.
  pose proof (header_at_lt _ _ _ _ Hh) as Hi.
  rewrite lines_between_end by assumption. simpl.
  split; [apply header_at_app, Hh|]. split; [assumption|].
  split; [assumption|]. split; [assumption|].
  rewrite (Hr T). reflexivity.
Qed.

(** The entries after [save_company], when the next line ends an entry. *)
Lemma save_company_closed (pre rest : list string) (st : loop_state)
    (l : string) :
  loop_inv pre st ->
  ends_entry (Str.strip l) = true ->
  Forall (entry_closed (pre ++ l :: rest)) (save_company st).
Proof.
  intros [Hs Ho Hsv Hc] He.
  assert (Hold : Forall (entry_closed (pre ++ l :: rest)) (rejected st)).
  { eapply Forall_impl; [exact Hsv|]. intros e. apply entry_closed_app. }
  unfold save_company.
  destruct (current_company st) as [c|] eqn:E; [|assumption].
  destruct (Str.truthy c) eqn:T; simpl; [|assumption].
  destruct (negb _); [|assumption].
  apply Forall_app. split; [assumption|]. constructor; [|constructor].
  destruct (Hc c eq_refl) as [_ Ht].
  destruct (current_entry_from pre (l :: rest) c _ Ht T) as (i & Hf).
  split; [simpl; intros ->; discriminate|].
  exists i, (length pre), l. split; [exact Hf|].
  split; [apply list_lookup_middle; reflexivity|exact He].
Qed.

(** The entries after [save_company], at the end of the lines. *)
Lemma save_company_end (pre : list string) (st : loop_state) :
  loop_inv pre st -> Forall (entry_ok pre) (save_company st).
Proof.
  intros [Hs Ho Hsv Hc].
  assert (Hold : Forall (entry_ok pre) (rejected st)).
  { eapply Forall_impl; [exact Hsv|]. intros e. apply entry_closed_ok. }
  unfold save_company.
  destruct (current_company st) as [c|] eqn:E; [|assumption].
  destruct (Str.truthy c) eqn:T; simpl; [|assumption].
  destruct (negb _); [|assumption].
  apply Forall_app. split; [assumption|]. constructor; [|constructor].
  destruct (Hc c eq_refl) as [_ Ht].
  destruct (current_entry_from pre [] c _ Ht T) as (i & Hf).
  rewrite app_nil_r in Hf.
  split; [simpl; intros ->; discriminate|].
  exists i, (length pre). split; [exact Hf|]. left. reflexivity.
Qed.

(** Going past a line that does not close the section, and does not end
    the entry of the current company, keeps what holds of the state. *)
Lemma loop_inv_snoc (pre : list string) (st : loop_state) (l : string) :
  loop_inv pre st ->
  (closing (Str.strip l) = true ->
   mentions_not_selected (Str.strip l) = true) ->
  (forall c, current_company st = Some c ->
             ends_entry (Str.strip l) = false /\
             (Str.truthy c = true -> continuation (Str.strip l) = false)) ->
  loop_inv (pre ++ [l]) st.
Proof.
  intros [Hs Ho Hsv Hc] Hl Hcur. constructor.
  - intros E. destruct (Hs E) as (j & lj & Hj & M). exists j, lj.
    split; [apply lookup_app_l_Some|]; assumption.
  - apply open_snoc; assumption.
  - eapply Forall_impl; [exact Hsv|]. intros e. apply entry_closed_app.
  - intros c E. destruct (Hc c E) as [Hin Ht]. split; [assumption|].
    destruct (Hcur c E) as [He Hk].
    apply (tracks_snoc pre c (current_reason st) _ l Ht He).
    intros T. rewrite (Hk T). reflexivity.
Qed.

Lemma empty_not_truthy (s : string) : Str.truthy s = false -> s = EmptyString.
Proof. destruct s; [reflexivity|discriminate]. Qed.

Lemma rejected_step_inv (pre : list string) (st st' : loop_state)
    (l : string) (c : control) :
  loop_inv pre st ->
  rejected_step st l = Ok (st', c) ->
  match c with
  | Next => loop_inv (pre ++ [l]) st'
  | Break => st' = st /\ ends_entry (Str.strip l) = true
  end.
Proof.
  intros Inv. unfold rejected_step, ends_entry, continuation.
  fold (mentions_not_selected (Str.strip l)).
  fold (closing (Str.strip l)).
  destruct (mentions_not_selected (Str.strip l)) eqn:Hm.
  { intros [= <- <-].
    assert (Inv' : loop_inv (pre ++ [l]) st).
    { apply loop_inv_snoc; [assumption|auto|].
      intros c _. unfold ends_entry, continuation. rewrite Hm.
      split; [reflexivity|]. intros _. apply andb_false_r. }
    destruct Inv' as [Hs Ho Hsv Hc]. constructor; simpl; auto.
    - intros _. exists (length pre), l. split; [|exact Hm].
      apply list_lookup_middle. reflexivity.
    - intros c E. destruct (Hc c E) as [_ Ht]. auto. }
  destruct (closing (Str.strip l)) eqn:Hc.
  { intros [= <- <-]. auto. }
  assert (Hl : closing (Str.strip l) = true ->
               mentions_not_selected (Str.strip l) = true)
    by (rewrite Hc; discriminate).
  destruct (in_rejected_section st && Str.truthy (Str.strip l)) eqn:Hin.
  2:{ intros [= <- <-]. apply loop_inv_snoc; [assumption..|].
      intros c E. destruct Inv as [_ _ _ Hcur].
      destruct (Hcur c E) as [Hr _]. rewrite Hr in Hin. simpl in Hin.
      apply empty_not_truthy in Hin.
      unfold ends_entry, continuation. rewrite Hin. auto. }
  apply andb_true_iff in Hin. destruct Hin as [Hin Ht].
  destruct (Str.contains ":" (Str.strip l)
            && negb (Str.startswith " " (Str.strip l))) eqn:Hh.
  - apply andb_true_iff in Hh. destruct Hh as [Hcolon _].
    pose proof Hcolon as P. apply contains_partition in P.
    destruct P as (b & a & P).
    rewrite index_split_0 by (simpl; lia). rewrite bind_ok.
    rewrite (index_splitn_1 _ _ _ _ P), bind_ok, P.
    intros [= <- <-].
    assert (He : ends_entry (Str.strip l) = true)
      by (unfold ends_entry; rewrite Hm, Hc, Hcolon; reflexivity).
    pose proof (save_company_closed pre [] st l Inv He) as Hsaved.
    destruct Inv as [Hs Ho Hsv Hcur]. constructor; simpl.
    + intros _. destruct (Hs Hin) as (j & lj & Hj & M). exists j, lj.
      split; [apply lookup_app_l_Some|]; assumption.
    + apply open_snoc; assumption.
    + exact Hsaved.
    + intros c' [= <-]. split; [assumption|].
      exists (length pre), b, a.
      rewrite drop_ge by (rewrite length_app; simpl; lia). simpl.
      split; [|auto].
      exists l. split; [apply list_lookup_middle; reflexivity|].
      split; [assumption|]. split; [assumption|]. split; [assumption|].
      split.
      * destruct (Hs Hin) as (j & lj & Hj & M). exists j, lj.
        split; [eapply lookup_lt_Some; eauto|].
        split; [apply lookup_app_l_Some|]; assumption.
      * intros k lk _. apply open_snoc; assumption.
  - rewrite strip_not_indented, andb_true_r in Hh.
    assert (He : ends_entry (Str.strip l) = false)
      by (unfold ends_entry; rewrite Hm, Hc, Hh; reflexivity).
    assert (Hk : continuation (Str.strip l) = true)
      by (unfold continuation; rewrite Hm, Ht; reflexivity).
    destruct (company_truthy (current_company st)
              && Str.truthy (Str.strip l)) eqn:Hct.
    + intros [= <- <-].
      destruct Inv as [Hs Ho Hsv Hcur]. constructor; simpl.
      * intros _. destruct (Hs Hin) as (j & lj & Hj & M). exists j, lj.
        split; [apply lookup_app_l_Some|]; assumption.
      * apply open_snoc; assumption.
      * eapply Forall_impl; [exact Hsv|]. intros e. apply entry_closed_app.
      * intros c' E. destruct (Hcur c' E) as [_ Htr]. split; [assumption|].
        apply (tracks_snoc pre c' (current_reason st) _ l Htr He).
        intros _. rewrite Hk. reflexivity.
    + intros [= <- <-]. rewrite Ht, andb_true_r in Hct.
      destruct Inv as [Hs Ho Hsv Hcur]. constructor.
      * intros _. destruct (Hs Hin) as (j & lj & Hj & M). exists j, lj.
        split; [apply lookup_app_l_Some|]; assumption.
      * apply open_snoc; assumption.
      * eapply Forall_impl; [exact Hsv|]. intros e. apply entry_closed_app.
      * intros c' E. destruct (Hcur c' E) as [_ Htr]. split; [assumption|].
        apply (tracks_snoc pre c' (current_reason st) _ l Htr He).
        intros T. rewrite E in Hct. simpl in Hct. congruence.
Qed.

Lemma rejected_loop_inv (ls : list string) :
  forall pre st st',
    loop_inv pre st ->
    rejected_loop ls st = Ok st' ->
    exists pre' rest,
      pre ++ ls = pre' ++ rest /\ loop_inv pre' st' /\
      (rest = [] \/
       exists l rest', rest = l :: rest' /\ ends_entry (Str.strip l) = true).
Proof.
  induction ls as [|l ls IH]; intros pre st st' Inv; simpl.
  - intros [= <-]. exists pre, []. auto.
  - destruct (rejected_step_ok st l) as (st1 & c & E). rewrite E, bind_ok.
    pose proof (rejected_step_inv _ _ _ _ _ Inv E) as H.
    destruct c.
    + intros R. destruct (IH _ _ _ H R) as (pre' & rest & Happ & Inv' & End).
      exists pre', rest. split; [|auto].
      rewrite <- Happ, <- app_assoc. reflexivity.
    + intros [= <-]. destruct H as [-> He].
      exists pre, (l :: ls). split; [reflexivity|]. split; [assumption|].
      right. eauto.
Qed.

Lemma loop_inv_initial : loop_inv [] initial_loop_state.
Proof.
  constructor; simpl.
  - discriminate.
  - intros k lk H. rewrite lookup_nil in H. discriminate.
  - constructor.
  - discriminate.
Qed.

Lemma parse_rejected (text : string) (p : parsed_decision) :
  parse_text_decision text = Ok p ->
  exists st, rejected_loop (lines_of text) initial_loop_state = Ok st /\
             rejected_companies p = save_company st.
Proof.
  unfold parse_text_decision. rewrite first_line_of_ok, bind_ok.
  destruct (extract_selected _) as [sel|e]; [|discriminate].
  rewrite bind_ok.
  destruct (rejected_loop _ _) as [st|e]; [|discriminate].
  rewrite bind_ok. intros [= <-]. eauto.
Qed.

Lemma parse_entries_ok (text : string) (p : parsed_decision) :
  parse_text_decision text = Ok p ->
  Forall (entry_ok (lines_of text)) (rejected_companies p).
Proof.
  intros H. destruct (parse_rejected _ _ H) as (st & L & ->).
  destruct (rejected_loop_inv _ _ _ _ loop_inv_initial L)
    as (pre & rest & Happ & Inv & End).
  simpl in Happ. rewrite Happ.
  destruct End as [->|(l & rest' & -> & He)].
  - rewrite app_nil_r. apply save_company_end, Inv.
  - eapply Forall_impl; [apply (save_company_closed pre rest' st l Inv He)|].
    intros e. apply entry_closed_ok.
Qed.

(** The reason of an entry is fixed by the lines: for the two lines
    below, no entry named Foo has another reason than 'weak'. *)
Example entry_ok_fixes_reason (r : string) :
  entry_ok ["The companies that were not selected:"; "Foo: weak"]
           {| name := "Foo"; reason := r |} ->
  r = "weak".
Proof.
  intros (_ & i & j & (b & a & Hh & _ & Hij & _ & Hr) & _).
  destruct Hh as (l & Hl & _ & Hm & P & _).
  destruct i as [|[|i]]; simpl in Hl; [| |discriminate].
  - injection Hl as <-. vm_compute in Hm. discriminate.
  - injection Hl as <-. vm_compute in P. injection P as <- <-.
    simpl in Hr. rewrite Hr. unfold lines_between. simpl.
    rewrite take_nil. reflexivity.
Qed.

End Rejected.

(** C10, as the code has it: every entry of [rejected_companies] has a
    non-empty name and comes from a header line of the text: a line with a
    [':'] that does not mention the companies that were not selected,
    stands after a line that mentions them, and has no line up to it that
    starts with 'Overall,' or 'In conclusion' without mentioning them. The
    name is what stands before the first [':'] of that line, stripped. The
    reason is what stands after it, stripped, joined by single spaces with
    the non-empty lines that follow, up to the next line that ends the
    entry (a closing line or the next line with a [':']) or the end of
    the text, lines mentioning the companies not selected left out. The
    reason itself may be empty. *)
Theorem rejected_entries_from_headers (text : string) :
  exists p, parse_text_decision text = Ok p /\
            Forall (entry_ok (lines_of text)) (rejected_companies p).
Proof.
  destruct (parse_returns text) as (p & H).
  exists p. split; [exact H|apply parse_entries_ok, H].
Qed.

(** C10 as stated fails: an entry can have an empty reason, and can come
    from a line that stands after a line starting with 'Overall,'. *)
Lemma rejected_entry_empty_reason :
  let text := nl "Overall, the companies that were not selected:" "Foo:" in
  lines_of text = ["Overall, the companies that were not selected:"; "Foo:"] /\
  Str.startswith "Overall," "Overall, the companies that were not selected:"
    = true /\
  exists p, parse_text_decision text = Ok p /\
            rejected_companies p = [{| name := "Foo"; reason := EmptyString |}].
Proof.
  repeat split. eexists. split; reflexivity.
Qed.

(** ** The analysis step *)

Section Analysis.

Variable env : Env.
Variable sector : string.

Ltac reduce_step :=
  cbv [run_trace analysis_step get_attr get_default mbind M_bind mret M_ret
       emit try_except_finally try_except analysis_body analysis_finally
       checkpoint cancel_requested sleep crew_kickoff st_warning st_error
       st_rerun set_attr return_ session_state trace snd app negb].

(** One case for each way the run can go. *)
Ltac split_run :=
  repeat (first
    [ match goal with
      | |- context [match ?m !! "analysis_running" with _ => _ end] =>
        destruct (m !! "analysis_running")
      | |- context [truthy ?v] => destruct (truthy v) eqn:?
      | |- context [match kickoff env sector with _ => _ end] =>
        destruct (kickoff env sector) eqn:?
      end ]; reduce_step).

(** Goes through the positions [i] of a trace that is written out, with
    [H : tr !! i = Some e]; [tac] deals with the positions that hold [e]. *)
Ltac at_each i H tac :=
  repeat (first
    [ discriminate H
    | destruct i as [|i];
      [ simpl in H; first [discriminate H | tac] | simpl in H ] ]).

Ltac no_kickoff :=
  let k := fresh "k" in
  let s := fresh "s" in
  let Hk := fresh "Hk" in
  intros k s Hk; at_each k Hk fail.

Lemma analysis_step_cancel (ss : gmap string pyval) :
  cancel_prop env (run_trace env sector ss).
Proof.
  reduce_step. split_run; try discriminate.
  all: split;
    [ intros i Hi Hb;
      at_each i Hi
        ltac:(first
          [ exfalso; apply (Hb 16 sector); [lia | reflexivity]
          | split; [no_kickoff | reflexivity] ])
    | intros i s Hi;
      at_each i Hi ltac:(injection Hi as <-; simpl; congruence) ].
Qed.

End Analysis.

(** C2: in every run of the analysis step, a checkpoint before the kickoff
    that finds the cancel flag set is followed by the warning and by the
    [finally] block only, and the run never calls the kickoff; and a kickoff
    that is called ends with the outcome the framework gave, whatever
    happens to the session, the cancel flag included, while it runs. *)
Theorem cancel_before_kickoff_only (env : Env) (sector : string)
    (ss : gmap string pyval) :
  (forall i,
     run_trace env sector ss !! i = Some (CancelCheck true) ->
     (forall j s, j < i -> run_trace env sector ss !! j <> Some (KickoffCall s)) ->
     (forall k s, run_trace env sector ss !! k <> Some (KickoffCall s)) /\
     drop (S i) (run_trace env sector ss) =
       [StWarning cancelled_warning; ProgressCleared; StatusCleared; StRerun])
  /\
  (forall i s,
     run_trace env sector ss !! i = Some (KickoffCall s) ->
     run_trace env sector ss !! S i = Some (KickoffDone (kickoff env s))).
Proof. exact (analysis_step_cancel env sector ss). Qed.

Lemma cancel_before_kickoff_only_witness :
  (let tr := run_trace (sample_env "raw" cancel_while_sleeping) "Finance"
               running_session in
   tr !! 7 = Some (CancelCheck true) /\
   (forall k s, tr !! k <> Some (KickoffCall s)) /\
   drop 8 tr =
     [StWarning cancelled_warning; ProgressCleared; StatusCleared; StRerun])
  /\
  (let tr := run_trace (sample_env "raw" cancel_during_kickoff) "Finance"
               running_session in
   tr !! 16 = Some (KickoffCall "Finance") /\
   tr !! 17 = Some (KickoffDone (Ok "raw")) /\
   tr !! 18 = Some (CancelCheck true)).
Proof.
  split.
  - split; [vm_compute; reflexivity|].
    apply (proj1 (cancel_before_kickoff_only
                    (sample_env "raw" cancel_while_sleeping) "Finance"
                    running_session) 7).
    + vm_compute. reflexivity.
    + intros j s Hj.
      do 7 (destruct j as [|j]; [vm_compute; discriminate|]). lia.
  - split; [vm_compute; reflexivity|].
    split; [|vm_compute; reflexivity].
    apply (proj2 (cancel_before_kickoff_only
                    (sample_env "raw" cancel_during_kickoff) "Finance"
                    running_session) 16 "Finance").
    vm_compute. reflexivity.
Defined.

(** ** The loaders *)

(** C4: [load_json_file] and [load_markdown_file] end normally whatever the
    file system and the decoder do: with the content when the file exists
    and is read (and decoded), with [None] and nothing shown when it does
    not exist, with [None] after [st.error] when a call raised. *)
Theorem load_files_never_raise (R : Type) (env : Env) (filepath : string)
    (w : World) :
  load_json_file (R:=R) env filepath w =
    match path_exists env filepath with
    | Ok true =>
      match open_read env filepath with
      | Ok text =>
        match json_decode env text with
        | Ok v => (Normal v, w)
        | Raise e => (Normal JNull, with_error w (loading_error filepath e))
        end
      | Raise e => (Normal JNull, with_error w (loading_error filepath e))
      end
    | Ok false => (Normal JNull, w)
    | Raise e => (Normal JNull, with_error w (loading_error filepath e))
    end
  /\
  load_markdown_file (R:=R) env filepath w =
    match path_exists env filepath with
    | Ok true =>
      match open_read env filepath with
      | Ok text => (Normal (Some text), w)
      | Raise e => (Normal None, with_error w (loading_error filepath e))
      end
    | Ok false => (Normal None, w)
    | Raise e => (Normal None, with_error w (loading_error filepath e))
    end.
Proof.
  unfold load_json_file, load_markdown_file, call, try_except, lift, emit,
    return_, with_error, loading_error.
  cbv [mbind M_bind mret M_ret].
  split.
  - destruct (path_exists env filepath) as [[|]|e]; try reflexivity.
    destruct (open_read env filepath) as [text|e]; try reflexivity.
    destruct (json_decode env text) as [v|e]; reflexivity.
  - destruct (path_exists env filepath) as [[|]|e]; try reflexivity.
    destruct (open_read env filepath) as [text|e]; reflexivity.
Qed.

(** ** The performance chart *)

Lemma create_performance_chart_cases (R : Type) (env : Env) (w : World) :
  create_performance_chart (R:=R) env w =
    match path_exists env db_path with
    | Ok false => (Normal None, w)
    | Ok true =>
      match sqlite_connect env db_path with
      | Ok _ =>
        match read_sql_query env performance_query with
        | Ok df =>
          match conn_close env with
          | Ok _ =>
            if df_empty df then (Normal None, w)
            else
              match px_line env df "date" "avg_score"
                      "Task Performance Over Time" "spline" with
              | Ok fig =>
                match update_layout env fig 400 with
                | Ok fig' => (Normal (Some fig'), w)
                | Raise e => (Normal None, with_error w (chart_error e))
                end
              | Raise e => (Normal None, with_error w (chart_error e))
              end
          | Raise e => (Normal None, with_error w (chart_error e))
          end
        | Raise e => (Normal None, with_error w (chart_error e))
        end
      | Raise e => (Normal None, with_error w (chart_error e))
      end
    | Raise e => (Normal None, with_error w (chart_error e))
    end.
Proof.
  unfold create_performance_chart, call, try_except, lift, emit, return_,
    with_error, chart_error.
  cbv [mbind M_bind mret M_ret].
  destruct (path_exists env db_path) as [[|]|e]; try reflexivity.
  cbv [negb].
  destruct (sqlite_connect env db_path) as [[]|e]; try reflexivity.
  destruct (read_sql_query env performance_query) as [df|e]; try reflexivity.
  destruct (conn_close env) as [[]|e]; try reflexivity.
  destruct df as [|r df]; try reflexivity. cbv [df_empty negb].
  destruct (px_line env _ _ _ _ _) as [fig|e]; try reflexivity.
  destruct (update_layout env fig 400) as [fig'|e]; reflexivity.
Qed.

(** C7: [create_performance_chart] always ends normally; it returns [None]
    when the database file does not exist, when the aggregation has no
    row, and whenever a call raised: a figure is returned only when every
    call succeeded and the aggregation has rows. *)
Theorem create_performance_chart_none (R : Type) (env : Env) (w : World) :
  (exists r w', create_performance_chart (R:=R) env w = (Normal r, w')) /\
  (path_exists env db_path = Ok false ->
   create_performance_chart (R:=R) env w = (Normal None, w)) /\
  (path_exists env db_path = Ok true ->
   sqlite_connect env db_path = Ok tt ->
   read_sql_query env performance_query = Ok [] ->
   conn_close env = Ok tt ->
   create_performance_chart (R:=R) env w = (Normal None, w)) /\
  (forall fig w',
     create_performance_chart (R:=R) env w = (Normal (Some fig), w') ->
     w' = w /\
     path_exists env db_path = Ok true /\
     sqlite_connect env db_path = Ok tt /\
     conn_close env = Ok tt /\
     exists df fig0,
       read_sql_query env performance_query = Ok df /\ df <> [] /\
       px_line env df "date" "avg_score" "Task Performance Over Time" "spline"
         = Ok fig0 /\
       update_layout env fig0 400 = Ok fig).
Proof.
  rewrite create_performance_chart_cases.
  destruct (path_exists env db_path) as [[|]|e];
    [|repeat split; eauto; discriminate..].
  destruct (sqlite_connect env db_path) as [[]|e];
    [|repeat split; eauto; discriminate].
  destruct (read_sql_query env performance_query) as [df|e];
    [|repeat split; eauto; discriminate].
  destruct (conn_close env) as [[]|e];
    [|repeat split; eauto; discriminate].
  destruct df as [|r df]; simpl; [repeat split; eauto; discriminate|].
  destruct (px_line env _ _ _ _ _) as [fig0|e] eqn:P;
    [|repeat split; eauto; discriminate].
  destruct (update_layout env fig0 400) as [fig1|e] eqn:U;
    [|repeat split; eauto; discriminate].
  split; [eauto|]. split; [discriminate|]. split; [discriminate|].
  intros fig w' [= <- <-]. do 4 (split; [reflexivity|]).
  exists (r :: df), fig0. split; [reflexivity|]. split; [discriminate|].
  split; [exact P|exact U].
Qed.

Lemma create_performance_chart_none_witness :
  create_performance_chart (R:=unit) (sample_env "raw" cancel_while_sleeping)
    empty_world = (Normal None, empty_world).
Proof.
  apply (proj1 (proj2 (create_performance_chart_none unit
                         (sample_env "raw" cancel_while_sleeping)
                         empty_world))).
  reflexivity.
Defined.

(** ** The decision section *)

(** C5, as the code has it: for a non-empty decision text on which the
    parser finds no selected company, the dashboard shows the subheader and
    then the raw text as Markdown, unchanged; nothing is raised and no
    error is shown. *)
Theorem unparsed_decision_falls_back (text : string) (p : parsed_decision)
    (w : World) :
  text <> EmptyString ->
  parse_text_decision text = Ok p ->
  selected_company p = EmptyString ->
  render_decision (Some text) w =
    (Normal tt,
     {| session_state := session_state w;
        trace := trace w ++ [StSubheader "💰 Investment Decision";
                             StMarkdown text false] |}).
Proof.
  intros Hne Hp Hsel. unfold render_decision, parse_call, lift, emit.
  destruct text as [|c text]; [congruence|]. cbv [Str.truthy].
  cbv [mbind M_bind]. rewrite Hp, Hsel. cbv [Str.truthy session_state trace].
  rewrite <- app_assoc. reflexivity.
Qed.

Lemma unparsed_decision_falls_back_witness :
  render_decision (Some "Hold everything.") empty_world =
    (Normal tt,
     {| session_state := ∅;
        trace := [StSubheader "💰 Investment Decision";
                  StMarkdown "Hold everything." false] |}).
Proof.
  apply (unparsed_decision_falls_back "Hold everything."
           {| selected_company := EmptyString;
              selection_reason := EmptyString;
              rejected_companies := [] |} empty_world).
  - discriminate.
  - reflexivity.
  - reflexivity.
Defined.

(** C5 as stated fails on the empty text: the parser finds no selected
    company in it, and the dashboard shows the notice that there is no
    decision yet, not the text. *)
Lemma empty_decision_shows_info :
  (exists p, parse_text_decision EmptyString = Ok p /\
             selected_company p = EmptyString) /\
  render_decision (Some EmptyString) empty_world =
    (Normal tt,
     {| session_state := ∅; trace := [StInfo no_decision_yet] |}) /\
  ~ In (StMarkdown EmptyString false)
       (trace (snd (render_decision (Some EmptyString) empty_world))).
Proof.
  split; [eexists; split; reflexivity|].
  split; [reflexivity|].
  simpl. intros [H|[]]. discriminate.
Qed.

(** ** The push notification *)

Section Push.

Import PushNotificationTool.



End Push.




(** ** The structured-output records *)

(** C6: [TrendingCompany] has exactly the string fields name, ticker and
    reason, and [TrendingCompanyList] wraps a list of it;
    [TrendingCompanyResearch] has exactly the string fields name,
    market_position, future_outlook and investment_potential, and
    [TrendingCompanyResearchList] wraps a list of it. *)
Theorem record_shapes :
  Crew.flat_record Crew.TrendingCompany spec_TrendingCompany /\
  Crew.list_of Crew.TrendingCompanyList Crew.TrendingCompany /\
  Crew.flat_record Crew.TrendingCompanyResearch spec_TrendingCompanyResearch /\
  Crew.list_of Crew.TrendingCompanyResearchList Crew.TrendingCompanyResearch.
Proof.
  repeat split; try reflexivity; eexists; reflexivity.
Qed.

(** ** More about [strip], [split] and [lower] *)

Section StripFacts.

Lemma lstrip_spaces (ws s : string) :
  all_space ws = true -> Str.lstrip (ws +:+ s) = Str.lstrip s.
Proof.
  induction ws as [|c ws IH]; simpl; [reflexivity|].
  intros H. apply andb_true_iff in H. destruct H as [-> H]. auto.
Qed.

Lemma rstrip_all_space (ws : string) :
  all_space ws = true -> Str.rstrip ws = EmptyString.
Proof.
  induction ws as [|c ws IH]; simpl; [reflexivity|].
  intros H. apply andb_true_iff in H. destruct H as [-> H].
  rewrite (IH H). reflexivity.
Qed.

Lemma rstrip_spaces (s ws : string) :
  all_space ws = true -> Str.rstrip (s +:+ ws) = Str.rstrip s.
Proof.
  intros H. induction s as [|c s IH]; simpl.
  - apply rstrip_all_space, H.
  - rewrite IH. reflexivity.
Qed.

Lemma lstrip_all_space (ws : string) :
  all_space ws = true -> Str.lstrip ws = EmptyString.
Proof.
  induction ws as [|c ws IH]; simpl; [reflexivity|].
  intros H. apply andb_true_iff in H. destruct H as [-> H]. auto.
Qed.

Lemma strip_spaces_r (s ws : string) :
  all_space ws = true -> Str.strip (s +:+ ws) = Str.strip s.
Proof.
  intros H. unfold Str.strip. induction s as [|c s IH]; simpl.
  - rewrite (lstrip_all_space _ H). reflexivity.
  - destruct (Str.is_space c); [exact IH|].
    apply (rstrip_spaces (String c s) ws H).
Qed.

(** Whitespace around a text does not change what [strip] gives. *)
Lemma strip_spaces (ws1 s ws2 : string) :
  all_space ws1 = true -> all_space ws2 = true ->
  Str.strip (ws1 +:+ s +:+ ws2) = Str.strip s.
Proof.
  intros H1 H2. unfold Str.strip. rewrite (lstrip_spaces _ _ H1).
  apply (strip_spaces_r s ws2 H2).
Qed.

Lemma rstrip_idem (s : string) : Str.rstrip (Str.rstrip s) = Str.rstrip s.
Proof.
  induction s as [|c s IH]; simpl; [reflexivity|].
  destruct (Str.is_space c && negb (Str.truthy (Str.rstrip s))) eqn:E;
    [reflexivity|].
  simpl. rewrite IH, E. reflexivity.
Qed.

Lemma lstrip_rstrip_lstrip (s : string) :
  Str.lstrip (Str.rstrip (Str.lstrip s)) = Str.rstrip (Str.lstrip s).
Proof.
  pose proof (lstrip_head s) as H.
  destruct (Str.lstrip s) as [|c r]; [reflexivity|].
  simpl. rewrite H. simpl. rewrite H. reflexivity.
Qed.

(** [strip] twice is [strip] once. *)
Lemma strip_idem (s : string) : Str.strip (Str.strip s) = Str.strip s.
Proof.
  unfold Str.strip. rewrite lstrip_rstrip_lstrip. apply rstrip_idem.
Qed.

Lemma contains_char_cons (c d : ascii) (r : string) :
  Str.contains (String c EmptyString) (String d r) =
  (if ascii_dec c d then true else false)
  || Str.contains (String c EmptyString) r.
Proof.
  rewrite contains_unfold. simpl String.prefix.
  destruct (ascii_dec c d); [rewrite prefix_empty|]; reflexivity.
Qed.

Lemma contains_char_lstrip (c : ascii) (s : string) :
  Str.contains (String c EmptyString) s = false ->
  Str.contains (String c EmptyString) (Str.lstrip s) = false.
Proof.
  induction s as [|d s IH]; simpl Str.lstrip; [auto|].
  destruct (Str.is_space d); [|auto].
  rewrite contains_char_cons. intros H. apply orb_false_iff in H.
  apply IH, H.
Qed.

Lemma contains_char_rstrip (c : ascii) (s : string) :
  Str.contains (String c EmptyString) s = false ->
  Str.contains (String c EmptyString) (Str.rstrip s) = false.
Proof.
  induction s as [|d s IH]; simpl Str.rstrip; [auto|].
  rewrite contains_char_cons. intros H. apply orb_false_iff in H.
  destruct H as [H1 H2].
  destruct (Str.is_space d && negb (Str.truthy (Str.rstrip s)));
    [reflexivity|].
  rewrite contains_char_cons, H1, (IH H2). reflexivity.
Qed.

(** [strip] brings in no character. *)
Lemma contains_char_strip (c : ascii) (s : string) :
  Str.contains (String c EmptyString) s = false ->
  Str.contains (String c EmptyString) (Str.strip s) = false.
Proof.
  intros H. apply contains_char_rstrip, contains_char_lstrip, H.
Qed.

Lemma contains_remove_char (c : ascii) (s : string) :
  Str.contains (String c EmptyString) (remove_char c s) = false.
Proof.
  induction s as [|d s IH]; simpl; [reflexivity|].
  destruct (Ascii.eqb c d) eqn:E; [exact IH|].
  rewrite contains_char_cons, IH.
  destruct (ascii_dec c d) as [->|]; [|reflexivity].
  rewrite Ascii.eqb_refl in E. discriminate.
Qed.

(** The text before the first [c] has no [c]. *)
Lemma partition_char_before (c : ascii) (s b a : string) :
  Str.partition (String c EmptyString) s = Some (b, a) ->
  Str.contains (String c EmptyString) b = false.
Proof.
  revert b; induction s as [|d r IH]; intros b; rewrite partition_unfold.
  - simpl. discriminate.
  - simpl String.prefix. destruct (ascii_dec c d) as [->|N].
    + rewrite prefix_empty. intros [= <- <-]. reflexivity.
    + destruct (Str.partition (String c EmptyString) r) as [[b' a']|];
        [|discriminate].
      intros [= <- <-]. rewrite contains_char_cons, (IH b' eq_refl).
      destruct (ascii_dec c d); [contradiction|reflexivity].
Qed.

End StripFacts.

(** ** Further properties of the parser *)

(** X1: whitespace before and after the decision text, blank lines
    included, does not change what the parser returns. *)
Theorem parse_ignores_surrounding_whitespace (ws1 text ws2 : string) :
  all_space ws1 = true -> all_space ws2 = true ->
  parse_text_decision (ws1 +:+ text +:+ ws2) = parse_text_decision text.
Proof.
  intros H1 H2. unfold parse_text_decision, lines_of.
  rewrite (strip_spaces ws1 text ws2 H1 H2). reflexivity.
Qed.

Lemma parse_ignores_surrounding_whitespace_witness :
  parse_text_decision
    (nl " " EmptyString +:+ "The chosen company is X" +:+ nl "  " " ")
  = parse_text_decision "The chosen company is X".
Proof.
  apply (parse_ignores_surrounding_whitespace
           (nl " " EmptyString) "The chosen company is X" (nl "  " " "));
    reflexivity.
Defined.

(** X2: the selected company never has a ['.'] in it and never has
    whitespace around it. *)
Theorem selected_company_clean (text : string) (p : parsed_decision) :
  parse_text_decision text = Ok p ->
  Str.contains "." (selected_company p) = false /\
  Str.strip (selected_company p) = selected_company p.
Proof.
  intros H. apply parse_selected in H. rewrite extract_selected_spec in H.
  injection H as <-.
  destruct (_ && _); [|split; reflexivity].
  split.
  - apply (contains_char_strip dot), contains_remove_char.
  - apply strip_idem.
Qed.

Lemma selected_company_clean_witness :
  Str.contains "." "Amazoncom Inc" = false /\
  Str.strip "Amazoncom Inc" = "Amazoncom Inc".
Proof.
  apply (selected_company_clean "The chosen company is  Amazon.com Inc. "
           {| selected_company := "Amazoncom Inc";
              selection_reason := EmptyString;
              rejected_companies := [] |}).
  reflexivity.
Defined.

(** X3: the name of a rejected company never has a [':'] in it and never
    has whitespace around it. *)
Theorem rejected_names_clean (text : string) (p : parsed_decision)
    (e : rejected_company) :
  parse_text_decision text = Ok p ->
  In e (rejected_companies p) ->
  Str.contains ":" (name e) = false /\ Str.strip (name e) = name e.
Proof.
  intros H Hin. apply parse_entries_ok in H.
  rewrite Forall_forall in H. apply list_elem_of_In in Hin.
  destruct (H e Hin) as (_ & i & j & (b & a & Hh & -> & _) & _).
  destruct Hh as (l & _ & _ & _ & P & _).
  split.
  - apply (contains_char_strip (ascii_of_nat 58)).
    apply (partition_char_before _ _ _ _ P).
  - apply strip_idem.
Qed.

Lemma rejected_names_clean_witness :
  Str.contains ":" "Foo Inc" = false /\ Str.strip "Foo Inc" = "Foo Inc".
Proof.
  apply (rejected_names_clean
           (nl "The companies that were not selected:" "  Foo Inc : a: b")
           {| selected_company := EmptyString;
              selection_reason := EmptyString;
              rejected_companies :=
                [{| name := "Foo Inc"; reason := "a: b" |}] |}
           {| name := "Foo Inc"; reason := "a: b" |}).
  - reflexivity.
  - left. reflexivity.
Defined.

Section Paragraph.

Lemma selection_paragraph_spec (lines : list string) :
  forall acc, selection_paragraph lines acc = acc ++ paragraph_lines lines.
Proof.
  unfold paragraph_lines.
  induction lines as [|l rest IH]; intros acc; simpl.
  - rewrite app_nil_r. reflexivity.
  - unfold Str.startswith, not_selected_prefix in *.
    destruct (String.prefix _ (Str.strip l)) eqn:P.
    + rewrite andb_false_r. simpl. rewrite app_nil_r. reflexivity.
    + rewrite andb_true_r. simpl.
      destruct (Str.truthy (Str.strip l)).
      * rewrite IH, <- app_assoc. reflexivity.
      * apply IH.
Qed.

Lemma parse_reason (text : string) (p : parsed_decision) :
  parse_text_decision text = Ok p ->
  selection_reason p = selection_reason_of (lines_of text).
Proof.
  unfold parse_text_decision. rewrite first_line_of_ok, bind_ok.
  destruct (extract_selected _) as [sel|e]; [|discriminate].
  rewrite bind_ok.
  destruct (rejected_loop _ _) as [st|e]; [|discriminate].
  rewrite bind_ok. intros [= <-]. reflexivity.
Qed.

End Paragraph.

(** X4: the selection reason is made of the non-empty stripped lines that
    stand before the first line starting with 'The companies that were not
    selected', the first of them left out, joined by single spaces; no
    later line has a part in it. *)
Theorem selection_reason_paragraph (text : string) (p : parsed_decision) :
  parse_text_decision text = Ok p ->
  selection_reason p = Str.join " " (tl (paragraph_lines (lines_of text))).
Proof.
  intros H. rewrite (parse_reason _ _ H). unfold selection_reason_of.
  rewrite selection_paragraph_spec. simpl.
  destruct (paragraph_lines (lines_of text)) as [|x [|y ys]]; reflexivity.
Qed.

Lemma selection_reason_paragraph_witness :
  "is cheap and grows" =
  Str.join " "
    (tl (paragraph_lines
           (lines_of (nl "The chosen company is X."
                     (nl " is cheap" (nl EmptyString (nl "and grows "
                     (nl "The companies that were not selected:"
                         "Foo: weak")))))))).
Proof.
  apply (selection_reason_paragraph
           (nl "The chosen company is X."
           (nl " is cheap" (nl EmptyString (nl "and grows "
           (nl "The companies that were not selected:" "Foo: weak")))))
           {| selected_company := "X";
              selection_reason := "is cheap and grows";
              rejected_companies := [{| name := "Foo"; reason := "weak" |}] |}).
  reflexivity.
Defined.

Section Substrings.

Lemma sapp_assoc (a b c : string) : (a +:+ b) +:+ c = a +:+ b +:+ c.
Proof. induction a as [|x a IH]; simpl; congruence. Qed.

Lemma sapp_nil_r (a : string) : a +:+ EmptyString = a.
Proof. induction a as [|x a IH]; simpl; congruence. Qed.

Lemma substring_refl (s : string) : substring_of s s.
Proof. exists EmptyString, EmptyString. simpl. rewrite sapp_nil_r. reflexivity. Qed.

Lemma substring_trans (a b c : string) :
  substring_of a b -> substring_of b c -> substring_of a c.
Proof.
  intros (x & y & ->) (x' & y' & ->).
  exists (x' +:+ x), (y +:+ y'). rewrite !sapp_assoc. reflexivity.
Qed.

Lemma substring_cons (a s : string) (c : ascii) :
  substring_of a s -> substring_of a (String c s).
Proof. intros (x & y & ->). exists (String c x), y. reflexivity. Qed.

Lemma lstrip_substring (s : string) : substring_of (Str.lstrip s) s.
Proof.
  induction s as [|c s IH]; simpl; [apply substring_refl|].
  destruct (Str.is_space c); [apply substring_cons, IH|apply substring_refl].
Qed.

Lemma rstrip_prefix (s : string) : exists y, s = Str.rstrip s +:+ y.
Proof.
  induction s as [|c s IH]; simpl; [exists EmptyString; reflexivity|].
  destruct (Str.is_space c && negb (Str.truthy (Str.rstrip s))).
  - exists (String c s). reflexivity.
  - destruct IH as (y & E). exists y. simpl. congruence.
Qed.

Lemma rstrip_substring (s : string) : substring_of (Str.rstrip s) s.
Proof.
  destruct (rstrip_prefix s) as (y & E). exists EmptyString, y. exact E.
Qed.

Lemma strip_substring (s : string) : substring_of (Str.strip s) s.
Proof.
  eapply substring_trans; [apply rstrip_substring|apply lstrip_substring].
Qed.

Lemma splitn_substring (sep : string) (n : nat) :
  forall s l, In l (Str.splitn sep n s) -> substring_of l s.
Proof.
  induction n as [|n IH]; intros s l; simpl.
  - intros [<-|[]]. apply substring_refl.
  - destruct (Str.partition sep s) as [[b a]|] eqn:P.
    + apply partition_app in P. intros [<-|H].
      * exists EmptyString, (sep +:+ a). exact P.
      * destruct (IH _ _ H) as (x & y & ->).
        exists (b +:+ sep +:+ x), y. rewrite P, !sapp_assoc. reflexivity.
    + intros [<-|[]]. apply substring_refl.
Qed.

Lemma line_substring (text l : string) :
  In l (lines_of text) -> substring_of (Str.strip l) text.
Proof.
  intros H. apply splitn_substring in H.
  eapply substring_trans; [apply strip_substring|].
  eapply substring_trans; [exact H|apply strip_substring].
Qed.

Lemma lower_app (a b : string) :
  Str.lower (a +:+ b) = Str.lower a +:+ Str.lower b.
Proof. induction a as [|c a IH]; simpl; congruence. Qed.

Lemma lower_substring (a s : string) :
  substring_of a s -> substring_of (Str.lower a) (Str.lower s).
Proof.
  intros (x & y & ->). exists (Str.lower x), (Str.lower y).
  rewrite !lower_app. reflexivity.
Qed.

Lemma contains_substring (sub a s : string) :
  substring_of a s -> Str.contains sub a = true -> Str.contains sub s = true.
Proof.
  intros (x & y & ->) H. apply contains_partition in H.
  destruct H as (b & r & P). apply partition_app in P. rewrite P.
  rewrite !sapp_assoc, <- (sapp_assoc x b). apply contains_app.
Qed.

Lemma mentions_in_text (text l : string) :
  In l (lines_of text) ->
  mentions_not_selected (Str.strip l) = true ->
  mentions_not_selected text = true.
Proof.
  intros Hin. unfold mentions_not_selected.
  apply contains_substring, lower_substring, line_substring, Hin.
Qed.

End Substrings.

(** X5: a text that nowhere mentions 'companies that were not selected', in
    any case, gives no rejected company. *)
Theorem no_mention_no_rejected (text : string) (p : parsed_decision) :
  mentions_not_selected text = false ->
  parse_text_decision text = Ok p ->
  rejected_companies p = [].
Proof.
  intros Hno H. apply parse_entries_ok in H.
  destruct (rejected_companies p) as [|e es]; [reflexivity|].
  apply Forall_cons in H.
  destruct H as [(_ & i & j0 & (b & a & Hh & _) & _) _].
  destruct Hh as (l & _ & _ & _ & _ & Hj & _).
  destruct Hj as (j & lj & _ & Hlj & M).
  assert (Hin : In lj (lines_of text)).
  { apply list_elem_of_In. eapply list_elem_of_lookup_2. exact Hlj. }
  rewrite (mentions_in_text _ _ Hin M) in Hno. discriminate.
Qed.

Lemma no_mention_no_rejected_witness :
  rejected_companies
    {| selected_company := "X";
       selection_reason := "Rejected: Foo: weak";
       rejected_companies := [] |} = [].
Proof.
  apply (no_mention_no_rejected
           (nl "The chosen company is X." "Rejected: Foo: weak")).
  - reflexivity.
  - reflexivity.
Defined.

Section Sections.

Lemma rejected_step_closing (st : loop_state) (l : string) :
  mentions_not_selected (Str.strip l) = false ->
  closing (Str.strip l) = true ->
  rejected_step st l = Ok (st, Break).
Proof.
  unfold mentions_not_selected, closing, rejected_step.
  intros -> ->. reflexivity.
Qed.

Lemma rejected_loop_cut (pre : list string) (l : string)
    (r1 r2 : list string) :
  mentions_not_selected (Str.strip l) = false ->
  closing (Str.strip l) = true ->
  forall st,
    rejected_loop (pre ++ l :: r1) st = rejected_loop (pre ++ l :: r2) st.
Proof.
  intros M C. induction pre as [|x pre IH]; intros st; simpl.
  - rewrite (rejected_step_closing st l M C). reflexivity.
  - destruct (rejected_step st x) as [[st' [|]]|e]; simpl; auto.
Qed.

Lemma contains_truthy (sub s : string) :
  Str.truthy sub = true -> Str.contains sub s = true -> Str.truthy s = true.
Proof. destruct sub, s; simpl; intros; congruence. Qed.

(** A header line closes the company before it and opens its own. *)
Lemma rejected_step_header (st : loop_state) (l : string) :
  in_rejected_section st = true ->
  plain_header l = true ->
  exists st',
    rejected_step st l = Ok (st', Next) /\
    in_rejected_section st' = true /\
    save_company st' = save_company st ++ [header_entry l].
Proof.
  intros Hin H. unfold plain_header in H.
  repeat (apply andb_true_iff in H; destruct H as [H ?]).
  apply negb_true_iff in H0, H1.
  unfold mentions_not_selected, closing in *.
  unfold rejected_step. rewrite H1, H0, Hin, H, strip_not_indented.
  rewrite (contains_truthy ":" _ eq_refl H). simpl andb. cbv iota.
  pose proof H as P. apply contains_partition in P.
  destruct P as (b & a & P).
  rewrite index_split_0 by (simpl; lia). rewrite bind_ok.
  rewrite (index_splitn_1 _ _ _ _ P), bind_ok, P.
  eexists. split; [reflexivity|]. split; [reflexivity|].
  unfold header_entry in *. rewrite P in *. simpl in H2.
  unfold save_company at 1. simpl. rewrite H2. reflexivity.
Qed.

Lemma rejected_loop_headers (hs : list string) :
  forall st,
    in_rejected_section st = true ->
    forallb plain_header hs = true ->
    exists st',
      rejected_loop hs st = Ok st' /\
      save_company st' = save_company st ++ map header_entry hs.
Proof.
  induction hs as [|h hs IH]; intros st Hin H; simpl.
  - exists st. rewrite app_nil_r. auto.
  - simpl in H. apply andb_true_iff in H. destruct H as [Hh Hhs].
    destruct (rejected_step_header st h Hin Hh) as (st1 & -> & Hin1 & S1).
    rewrite bind_ok.
    destruct (IH st1 Hin1 Hhs) as (st' & -> & S').
    exists st'. split; [reflexivity|].
    rewrite S', S1, <- app_assoc. reflexivity.
Qed.

(** Before the section, a line that does not mention it and does not close
    leaves the state of the loop as it is. *)
Lemma rejected_step_plain (st : loop_state) (l : string) :
  in_rejected_section st = false ->
  plain_line l = true ->
  rejected_step st l = Ok (st, Next).
Proof.
  intros Hin H. unfold plain_line in H.
  apply andb_true_iff in H. destruct H as [M C].
  apply negb_true_iff in M, C. unfold mentions_not_selected, closing in *.
  unfold rejected_step. rewrite M, C, Hin. reflexivity.
Qed.

Lemma rejected_loop_plain (pre rest : list string) (st : loop_state) :
  in_rejected_section st = false ->
  forallb plain_line pre = true ->
  rejected_loop (pre ++ rest) st = rejected_loop rest st.
Proof.
  intros Hin. induction pre as [|x pre IH]; simpl; [reflexivity|].
  intros H. apply andb_true_iff in H. destruct H as [Hx Hpre].
  rewrite (rejected_step_plain st x Hin Hx), bind_ok. auto.
Qed.

Lemma rejected_step_mention (st : loop_state) (l : string) :
  mentions_not_selected (Str.strip l) = true ->
  rejected_step st l =
    Ok ({| in_rejected_section := true;
           current_company := current_company st;
           current_reason := current_reason st;
           rejected := rejected st |}, Next).
Proof.
  unfold mentions_not_selected, rejected_step. intros ->. reflexivity.
Qed.

Lemma parse_with_loop (text : string) (st : loop_state) :
  rejected_loop (lines_of text) initial_loop_state = Ok st ->
  exists p, parse_text_decision text = Ok p /\
            rejected_companies p = save_company st.
Proof.
  intros L. destruct (parse_returns text) as (p & H). exists p.
  split; [exact H|].
  destruct (parse_rejected _ _ H) as (st' & L' & ->). congruence.
Qed.

End Sections.

(** X6: nothing that stands after a closing line (one starting with
    'Overall,' or 'In conclusion' that does not mention the companies not
    selected) has a part in the rejected companies: two texts with the
    same lines up to such a line give the same list. *)
Theorem closing_line_ends_rejected (t1 t2 : string) (pre : list string)
    (l : string) (r1 r2 : list string) (p1 p2 : parsed_decision) :
  lines_of t1 = pre ++ l :: r1 ->
  lines_of t2 = pre ++ l :: r2 ->
  mentions_not_selected (Str.strip l) = false ->
  closing (Str.strip l) = true ->
  parse_text_decision t1 = Ok p1 ->
  parse_text_decision t2 = Ok p2 ->
  rejected_companies p1 = rejected_companies p2.
Proof.
  intros E1 E2 M C H1 H2.
  destruct (parse_rejected _ _ H1) as (s1 & L1 & ->).
  destruct (parse_rejected _ _ H2) as (s2 & L2 & ->).
  rewrite E1 in L1. rewrite E2 in L2.
  rewrite (rejected_loop_cut pre l r1 r2 M C) in L1. congruence.
Qed.

Lemma closing_line_ends_rejected_witness :
  [{| name := "Foo"; reason := "weak" |}] =
  [{| name := "Foo"; reason := "weak" |}].
Proof.
  apply (closing_line_ends_rejected
           (nl "The companies that were not selected:"
           (nl "Foo: weak" (nl "In conclusion, buy X." "Bar: late")))
           (nl "The companies that were not selected:"
           (nl "Foo: weak" "In conclusion, buy X."))
           ["The companies that were not selected:"; "Foo: weak"]
           "In conclusion, buy X." ["Bar: late"] []
           {| selected_company := EmptyString;
              selection_reason := EmptyString;
              rejected_companies := [{| name := "Foo"; reason := "weak" |}] |}
           {| selected_company := EmptyString;
              selection_reason := EmptyString;
              rejected_companies := [{| name := "Foo"; reason := "weak" |}] |});
    reflexivity.
Defined.

(** X7: when the lines after the first line that mentions the companies
    not selected are all header lines ('name: reason', not closing, not
    mentioning the companies not selected), and no line before it closes,
    the rejected companies are exactly these lines, in order: the name is
    what stands before the first [':'] and the reason what stands after
    it, both stripped. *)
Theorem headers_give_rejected (text : string) (pre : list string)
    (m : string) (hs : list string) :
  lines_of text = pre ++ m :: hs ->
  forallb plain_line pre = true ->
  mentions_not_selected (Str.strip m) = true ->
  forallb plain_header hs = true ->
  exists p, parse_text_decision text = Ok p /\
            rejected_companies p = map header_entry hs.
Proof.
  intros E Hpre Hm Hhs.
  set (st1 := {| in_rejected_section := true;
                 current_company := None;
                 current_reason := [];
                 rejected := [] |}).
  destruct (rejected_loop_headers hs st1 eq_refl Hhs) as (st' & L & S).
  destruct (parse_with_loop text st') as (p & H & R).
  { rewrite E.
    rewrite (rejected_loop_plain pre _ initial_loop_state eq_refl Hpre).
    simpl.
    rewrite (rejected_step_mention _ m Hm), bind_ok. exact L. }
  exists p. split; [exact H|]. rewrite R, S. reflexivity.
Qed.

Lemma headers_give_rejected_witness :
  exists p,
    parse_text_decision
      (nl "The chosen company is X."
      (nl "The companies that were not selected:"
      (nl "Foo Inc: weak margins" " Bar : late: twice"))) = Ok p /\
    rejected_companies p =
      [{| name := "Foo Inc"; reason := "weak margins" |};
       {| name := "Bar"; reason := "late: twice" |}].
Proof.
  apply (headers_give_rejected
           (nl "The chosen company is X."
           (nl "The companies that were not selected:"
           (nl "Foo Inc: weak margins" " Bar : late: twice")))
           ["The chosen company is X."]
           "The companies that were not selected:"
           ["Foo Inc: weak margins"; " Bar : late: twice"]);
    reflexivity.
Defined.

(** ** The session state *)

Section Session.

Lemma union_singleton_present (ss : gmap string pyval) (k : string)
    (v v' : pyval) :
  ss !! k = Some v' -> ss ∪ {[ k := v ]} = ss.
Proof.
  intros H. apply map_eq. intros i. rewrite lookup_union.
  destruct (decide (i = k)) as [->|N].
  - rewrite H, lookup_singleton_eq. reflexivity.
  - rewrite lookup_singleton_ne by congruence.
    destruct (ss !! i); reflexivity.
Qed.

Lemma set_default_union {R} (k : string) (v : pyval) (w : World) :
  set_default (R:=R) k v w =
  (Normal tt, {| session_state := session_state w ∪ {[ k := v ]};
                 trace := trace w |}).
Proof.
  unfold set_default, set_attr. destruct w as [ss tr]. simpl.
  destruct (ss !! k) as [v'|] eqn:E.
  - rewrite (union_singleton_present ss k v v' E). reflexivity.
  - rewrite (insert_union_singleton_r ss k v E). reflexivity.
Qed.

Lemma init_session_state_union {R} (w : World) :
  init_session_state (R:=R) w =
    (Normal tt, {| session_state := session_state w ∪ session_defaults;
                   trace := trace w |}).
Proof.
  unfold init_session_state, session_defaults.
  cbv [mbind M_bind]. rewrite !set_default_union. simpl.
  rewrite !(assoc_L (∪)). reflexivity.
Qed.

End Session.

(** X8: the initialisation of the session state gives each of the four
    keys its default where it is missing and leaves every value that is
    there as it is; it shows nothing. *)
Theorem init_session_state_defaults (R : Type) (w : World) :
  exists w',
    init_session_state (R:=R) w = (Normal tt, w') /\
    trace w' = trace w /\
    (forall k v, session_state w !! k = Some v ->
                 session_state w' !! k = Some v) /\
    (forall k, session_state w !! k = None ->
               session_state w' !! k = session_defaults !! k) /\
    is_Some (session_state w' !! "analysis_running") /\
    is_Some (session_state w' !! "cancel_analysis") /\
    is_Some (session_state w' !! "analysis_completed") /\
    is_Some (session_state w' !! "last_analysis_sector").
Proof.
  eexists. split; [apply init_session_state_union|]. simpl.
  split; [reflexivity|].
  split.
  { intros k v H. rewrite lookup_union, H.
    destruct (session_defaults !! k); reflexivity. }
  split.
  { intros k H. rewrite lookup_union, H.
    destruct (session_defaults !! k); reflexivity. }
  repeat split; rewrite lookup_union;
    (destruct (session_state w !! _); [eexists; reflexivity|]);
    eexists; vm_compute; reflexivity.
Qed.

Lemma init_session_state_defaults_witness :
  exists w',
    init_session_state (R:=unit) (fresh running_session) = (Normal tt, w') /\
    session_state w' !! "analysis_running" = Some (PBool true) /\
    session_state w' !! "cancel_analysis" = Some (PBool false).
Proof.
  destruct (init_session_state_defaults unit (fresh running_session))
    as (w' & E & _ & Hk & Hd & _).
  exists w'. split; [exact E|]. split.
  - apply Hk. vm_compute. reflexivity.
  - rewrite Hd; vm_compute; reflexivity.
Defined.

(** ** The outcome of the analysis step *)

Section Outcome.

Variable env : Env.
Variable sector : string.

Ltac run_step :=
  cbv [analysis_step get_attr get_default mbind M_bind mret M_ret
       emit try_except_finally try_except analysis_body analysis_finally
       checkpoint cancel_requested sleep crew_kickoff st_warning st_error
       st_rerun set_attr return_ session_state trace negb fresh].

Ltac split_outcome :=
  repeat (first
    [ match goal with
      | |- context [truthy ?v] => destruct (truthy v) eqn:?
      | |- context [match kickoff env sector with _ => _ end] =>
        destruct (kickoff env sector) eqn:?
      end ]; run_step).

Lemma triggered_inv (ss : gmap string pyval) :
  triggered ss = true ->
  exists v, ss !! "analysis_running" = Some v /\ truthy v = true /\
            truthy (default (PBool false) (ss !! "cancel_analysis")) = false.
Proof.
  unfold triggered. destruct (ss !! "analysis_running") as [v|];
    [|discriminate].
  intros H. apply andb_true_iff in H. destruct H as [H1 H2].
  apply negb_true_iff in H2. eauto.
Qed.

Lemma triggered_step_rerun (ss : gmap string pyval) (tr : list event) :
  triggered ss = true ->
  exists w',
    analysis_step env sector {| session_state := ss; trace := tr |}
      = (Rerun, w') /\
    session_state w' !! "analysis_running" = Some (PBool false) /\
    session_state w' !! "cancel_analysis" = Some (PBool false).
Proof.
  intros H. destruct (triggered_inv ss H) as (v & Hv & Tv & Tc).
  run_step. rewrite Hv, Tv, Tc. run_step. split_outcome.
  all: eexists; split; [reflexivity|]; cbv [session_state];
    split; [rewrite lookup_insert_ne by done|]; apply lookup_insert_eq.
Qed.

Lemma untriggered_step_idle (ss : gmap string pyval) (tr : list event)
    (v : pyval) :
  ss !! "analysis_running" = Some v ->
  triggered ss = false ->
  analysis_step env sector {| session_state := ss; trace := tr |}
    = (Normal tt, {| session_state := ss; trace := tr |}).
Proof.
  unfold triggered. intros Hv. rewrite Hv. intros H.
  run_step. rewrite Hv.
  destruct (truthy v); [|reflexivity].
  simpl in H. apply negb_false_iff in H. run_step. rewrite H. reflexivity.
Qed.

Hypothesis Hquiet : quiet env.

Ltac calm Tc Hk :=
  let Hq := fresh "Hq" in
  pose proof Hquiet as Hq; unfold quiet in Hq;
  repeat (first [ rewrite Hq | rewrite Tc | rewrite Hk
                | progress run_step ]);
  clear Hq.

Lemma quiet_step_success (ss : gmap string pyval) (tr : list event)
    (raw : string) :
  triggered ss = true ->
  kickoff env sector = Ok raw ->
  analysis_step env sector {| session_state := ss; trace := tr |} =
    (Rerun,
     {| session_state := reset_flags (store_result raw sector ss);
        trace := tr ++ events_to_kickoff sector ++ events_after_success raw |}).
Proof.
  intros H Hk. destruct (triggered_inv ss H) as (v & Hv & Tv & Tc).
  run_step. rewrite Hv, Tv. calm Tc Hk.
  repeat rewrite <- app_assoc. reflexivity.
Qed.

Lemma quiet_step_failure (ss : gmap string pyval) (tr : list event)
    (e : exn) :
  triggered ss = true ->
  kickoff env sector = Raise e ->
  analysis_step env sector {| session_state := ss; trace := tr |} =
    (Rerun,
     {| session_state := reset_flags ss;
        trace := tr ++ events_to_kickoff sector ++ events_after_failure e |}).
Proof.
  intros H Hk. destruct (triggered_inv ss H) as (v & Hv & Tv & Tc).
  run_step. rewrite Hv, Tv. calm Tc Hk.
  repeat rewrite <- app_assoc. reflexivity.
Qed.

End Outcome.

(** X9: a step that is triggered always ends by [st.rerun()], with
    [analysis_running] and [cancel_analysis] both [False], whether it was
    cancelled, failed or succeeded and whatever happened to the session
    meanwhile; no exception of the framework gets out of it. *)
Theorem triggered_step_resets_flags (env : Env) (sector : string)
    (w : World) :
  triggered (session_state w) = true ->
  exists w',
    analysis_step env sector w = (Rerun, w') /\
    session_state w' !! "analysis_running" = Some (PBool false) /\
    session_state w' !! "cancel_analysis" = Some (PBool false).
Proof.
  destruct w as [ss tr]. apply triggered_step_rerun.
Qed.

Lemma triggered_step_resets_flags_witness :
  exists w',
    analysis_step (sample_env "raw" cancel_during_kickoff) "Finance"
      (fresh running_session) = (Rerun, w') /\
    session_state w' !! "analysis_running" = Some (PBool false) /\
    session_state w' !! "cancel_analysis" = Some (PBool false).
Proof.
  apply (triggered_step_resets_flags
           (sample_env "raw" cancel_during_kickoff) "Finance"
           (fresh running_session)).
  vm_compute. reflexivity.
Defined.

(** X10: with nothing touching the session meanwhile, a triggered step
    whose kickoff returns goes through the three progress steps, calls the
    kickoff once for the selected sector, and stores the raw result, the
    sector and [analysis_completed = True] before it resets the flags and
    reruns. *)
Theorem analysis_success_stores_result (env : Env) (sector raw : string)
    (w : World) :
  quiet env ->
  triggered (session_state w) = true ->
  kickoff env sector = Ok raw ->
  analysis_step env sector w =
    (Rerun,
     {| session_state :=
          reset_flags (store_result raw sector (session_state w));
        trace := trace w ++ events_to_kickoff sector
                         ++ events_after_success raw |}).
Proof. intros Hq. destruct w. apply quiet_step_success, Hq. Qed.

Lemma analysis_success_stores_result_witness :
  analysis_step (sample_env "Buy X" (fun _ w => session_state w)) "Energy"
    (fresh running_session) =
    (Rerun,
     {| session_state :=
          reset_flags (store_result "Buy X" "Energy" running_session);
        trace := events_to_kickoff "Energy" ++ events_after_success "Buy X" |}).
Proof.
  apply (analysis_success_stores_result
           (sample_env "Buy X" (fun _ w => session_state w)) "Energy" "Buy X"
           (fresh running_session)).
  - intros b w. reflexivity.
  - vm_compute. reflexivity.
  - reflexivity.
Defined.

(** X11: with nothing touching the session meanwhile, a triggered step
    whose kickoff raises shows the exception in an error message and
    stores nothing: the session only has its two flags reset, so
    [analysis_completed] and [last_result] stay as they were. *)
Theorem analysis_failure_stores_nothing (env : Env) (sector : string)
    (e : exn) (w : World) :
  quiet env ->
  triggered (session_state w) = true ->
  kickoff env sector = Raise e ->
  analysis_step env sector w =
    (Rerun,
     {| session_state := reset_flags (session_state w);
        trace := trace w ++ events_to_kickoff sector
                         ++ events_after_failure e |}).
Proof. intros Hq. destruct w. apply quiet_step_failure, Hq. Qed.

Lemma analysis_failure_stores_nothing_witness :
  analysis_step (failing_env (Exception "rate limit")) "Energy"
    (fresh running_session) =
    (Rerun,
     {| session_state := reset_flags running_session;
        trace := events_to_kickoff "Energy"
                 ++ events_after_failure (Exception "rate limit") |}).
Proof.
  apply (analysis_failure_stores_nothing
           (failing_env (Exception "rate limit")) "Energy"
           (Exception "rate limit") (fresh running_session)).
  - intros b w. reflexivity.
  - vm_compute. reflexivity.
  - reflexivity.
Defined.

(** ** The execution section *)

Section Execution.

Lemma defaults_running (ss : gmap string pyval) :
  exists v, (ss ∪ session_defaults) !! "analysis_running" = Some v /\
            v = default (PBool false) (ss !! "analysis_running").
Proof.
  rewrite lookup_union.
  destruct (ss !! "analysis_running") as [v|]; eexists; split;
    first [reflexivity | vm_compute; reflexivity].
Qed.

Lemma defaults_present (m : gmap string pyval) :
  is_Some (m !! "analysis_running") ->
  is_Some (m !! "cancel_analysis") ->
  is_Some (m !! "analysis_completed") ->
  is_Some (m !! "last_analysis_sector") ->
  m ∪ session_defaults = m.
Proof.
  intros [a Ha] [b Hb] [c Hc] [d Hd]. unfold session_defaults.
  rewrite !(assoc_L (∪)).
  rewrite (union_singleton_present m _ _ a Ha).
  rewrite (union_singleton_present m _ _ b Hb).
  rewrite (union_singleton_present m _ _ c Hc).
  apply (union_singleton_present m _ _ d Hd).
Qed.

Lemma defaults_after_insert (ss : gmap string pyval) (k1 k2 : string)
    (v1 v2 : pyval) :
  <[k1 := v1]> (<[k2 := v2]> (ss ∪ session_defaults)) ∪ session_defaults
  = <[k1 := v1]> (<[k2 := v2]> (ss ∪ session_defaults)).
Proof.
  assert (P : forall k, is_Some (session_defaults !! k) ->
                        is_Some ((<[k1 := v1]> (<[k2 := v2]>
                                   (ss ∪ session_defaults))) !! k)).
  { intros k [d Hd].
    destruct (decide (k1 = k)) as [->|N1];
      [rewrite lookup_insert_eq; eauto|rewrite lookup_insert_ne by done].
    destruct (decide (k2 = k)) as [->|N2];
      [rewrite lookup_insert_eq; eauto|rewrite lookup_insert_ne by done].
    rewrite lookup_union, Hd. destruct (ss !! k); eauto. }
  apply defaults_present; apply P; eexists; vm_compute; reflexivity.
Qed.

Lemma analysis_step_completes (env : Env) (sector : string)
    (ss : gmap string pyval) (tr : list event) (v : pyval) :
  ss !! "analysis_running" = Some v ->
  fst (analysis_step env sector {| session_state := ss; trace := tr |})
    = Normal tt \/
  fst (analysis_step env sector {| session_state := ss; trace := tr |})
    = Rerun.
Proof.
  intros Hv. destruct (triggered ss) eqn:T.
  - destruct (triggered_step_rerun env sector ss tr T) as (w' & -> & _).
    right. reflexivity.
  - rewrite (untriggered_step_idle env sector ss tr v Hv T).
    left. reflexivity.
Qed.

Ltac run_controls :=
  cbv [execution_section controls get_attr set_attr emit st_warning st_rerun
       mbind M_bind mret M_ret session_state trace fresh].

Lemma execution_section_outcome (clicked : string -> bool) (env : Env)
    (sector : string) (w : World) :
  fst (execution_section clicked env sector w) = Normal tt \/
  fst (execution_section clicked env sector w) = Rerun.
Proof.
  destruct w as [ss tr]. unfold execution_section.
  cbv [mbind M_bind]. rewrite init_session_state_union. cbv [session_state trace].
  destruct (defaults_running ss) as (v & Hv & _).
  run_controls. rewrite Hv.
  destruct (truthy v); cbv [negb].
  - destruct (clicked cancel_label); [right; reflexivity|].
    apply (analysis_step_completes env sector _ _ v Hv).
  - destruct (clicked start_label); [right; reflexivity|].
    apply (analysis_step_completes env sector _ _ v Hv).
Qed.

Lemma cancel_click_run (clicked : string -> bool) (env : Env)
    (sector : string) (ss : gmap string pyval) :
  truthy (default (PBool false) (ss !! "analysis_running")) = true ->
  clicked cancel_label = true ->
  execution_section clicked env sector (fresh ss) =
    (Rerun,
     {| session_state :=
          <["analysis_running" := PBool false]>
            (<["cancel_analysis" := PBool true]> (ss ∪ session_defaults));
        trace := [StColumns [3; 1]; StInfo in_progress;
                  StWarning cancelled_by_user; StRerun] |}).
Proof.
  intros T C. unfold execution_section, fresh.
  cbv [mbind M_bind]. rewrite init_session_state_union. cbv [session_state trace].
  destruct (defaults_running ss) as (v & Hv & ->).
  run_controls. rewrite Hv, T, C. reflexivity.
Qed.

Lemma idle_run (clicked : string -> bool) (env : Env) (sector : string)
    (m : gmap string pyval) :
  m ∪ session_defaults = m ->
  m !! "analysis_running" = Some (PBool false) ->
  clicked start_label = false ->
  execution_section clicked env sector (fresh m) = (Normal tt, fresh m).
Proof.
  intros U R C. unfold execution_section, fresh.
  cbv [mbind M_bind]. rewrite init_session_state_union. cbv [session_state trace].
  rewrite U. run_controls. rewrite R, C. cbv [truthy negb].
  apply (untriggered_step_idle env sector m [] (PBool false) R).
  unfold triggered. rewrite R. reflexivity.
Qed.

Lemma start_click_run (clicked : string -> bool) (env : Env)
    (sector : string) (ss : gmap string pyval) :
  truthy (default (PBool false) (ss !! "analysis_running")) = false ->
  clicked start_label = true ->
  execution_section clicked env sector (fresh ss) =
    (Rerun, {| session_state := after_start ss; trace := [StRerun] |}).
Proof.
  intros T C. unfold execution_section, fresh.
  cbv [mbind M_bind]. rewrite init_session_state_union. cbv [session_state trace].
  destruct (defaults_running ss) as (v & Hv & ->).
  run_controls. rewrite Hv, T, C. reflexivity.
Qed.

Lemma running_run (clicked : string -> bool) (env : Env) (sector raw : string)
    (m : gmap string pyval) :
  quiet env ->
  m ∪ session_defaults = m ->
  triggered m = true ->
  clicked cancel_label = false ->
  kickoff env sector = Ok raw ->
  execution_section clicked env sector (fresh m) =
    (Rerun,
     {| session_state := reset_flags (store_result raw sector m);
        trace := [StColumns [3; 1]; StInfo in_progress]
                 ++ events_to_kickoff sector ++ events_after_success raw |}).
Proof.
  intros Q U T C K. unfold execution_section, fresh.
  cbv [mbind M_bind]. rewrite init_session_state_union. cbv [session_state trace].
  rewrite U. destruct (triggered_inv m T) as (v & Hv & Tv & Tc).
  run_controls. rewrite Hv, Tv, C. cbv [negb].
  apply (quiet_step_success env sector Q m _ raw T K).
Qed.

End Execution.

(** X12: the execution section never lets an exception out: from any
    session, whatever is clicked and whatever the framework does, a run
    ends normally or by [st.rerun()]. *)
Theorem execution_section_never_raises (clicked : string -> bool)
    (env : Env) (sector : string) (w : World) :
  fst (execution_section clicked env sector w) = Normal tt \/
  fst (execution_section clicked env sector w) = Rerun.
Proof. apply execution_section_outcome. Qed.

(** X13: a click on Cancel while [analysis_running] is set shows the
    warning and reruns with [analysis_running = False] and
    [cancel_analysis = True], without calling the framework; and the run
    that follows, unless Start is clicked, leaves the session as it is and
    shows nothing: the analysis does not start again. *)
Theorem cancel_click_stops_analysis (clicked clicked' : string -> bool)
    (env env' : Env) (sector sector' : string) (ss : gmap string pyval) :
  truthy (default (PBool false) (ss !! "analysis_running")) = true ->
  clicked cancel_label = true ->
  clicked' start_label = false ->
  exists ss1,
    execution_section clicked env sector (fresh ss) =
      (Rerun,
       {| session_state := ss1;
          trace := [StColumns [3; 1]; StInfo in_progress;
                    StWarning cancelled_by_user; StRerun] |}) /\
    ss1 !! "analysis_running" = Some (PBool false) /\
    ss1 !! "cancel_analysis" = Some (PBool true) /\
    execution_section clicked' env' sector' (fresh ss1)
      = (Normal tt, fresh ss1).
Proof.
  intros T C C'. eexists. split; [apply cancel_click_run; assumption|].
  split; [apply lookup_insert_eq|].
  split; [rewrite lookup_insert_ne by done; apply lookup_insert_eq|].
  apply idle_run; [apply defaults_after_insert|apply lookup_insert_eq|exact C'].
Qed.

Lemma cancel_click_stops_analysis_witness :
  exists ss1,
    execution_section (fun _ => true) (sample_env "raw" cancel_while_sleeping)
      "Finance" (fresh running_session) =
      (Rerun,
       {| session_state := ss1;
          trace := [StColumns [3; 1]; StInfo in_progress;
                    StWarning cancelled_by_user; StRerun] |}) /\
    ss1 !! "analysis_running" = Some (PBool false) /\
    ss1 !! "cancel_analysis" = Some (PBool true) /\
    execution_section (fun _ => false)
      (sample_env "raw" cancel_while_sleeping) "Finance" (fresh ss1)
      = (Normal tt, fresh ss1).
Proof.
  apply (cancel_click_stops_analysis (fun _ => true) (fun _ => false)
           (sample_env "raw" cancel_while_sleeping)
           (sample_env "raw" cancel_while_sleeping)
           "Finance" "Finance" running_session).
  - vm_compute. reflexivity.
  - reflexivity.
  - reflexivity.
Defined.

(** X14: a click on Start while [analysis_running] is not set only sets
    [analysis_running = True] and [cancel_analysis = False], on top of the
    initialised session, and reruns; in the run that follows, if Cancel is
    not clicked, nothing touches the session and the kickoff returns, the
    analysis runs through for the selected sector and its result is
    stored. *)
Theorem start_click_runs_analysis (clicked clicked' : string -> bool)
    (env env' : Env) (sector sector' raw : string) (ss : gmap string pyval) :
  truthy (default (PBool false) (ss !! "analysis_running")) = false ->
  clicked start_label = true ->
  clicked' cancel_label = false ->
  quiet env' ->
  kickoff env' sector' = Ok raw ->
  execution_section clicked env sector (fresh ss) =
    (Rerun, {| session_state := after_start ss; trace := [StRerun] |}) /\
  execution_section clicked' env' sector' (fresh (after_start ss)) =
    (Rerun,
     {| session_state :=
          reset_flags (store_result raw sector' (after_start ss));
        trace := [StColumns [3; 1]; StInfo in_progress]
                 ++ events_to_kickoff sector'
                 ++ events_after_success raw |}).
Proof.
  intros T C C' Q K. split; [apply start_click_run; assumption|].
  apply running_run; try assumption.
  - apply defaults_after_insert.
  - unfold triggered, after_start.
    rewrite lookup_insert_ne by done. rewrite lookup_insert_eq.
    rewrite lookup_insert_eq. reflexivity.
Qed.

Lemma start_click_runs_analysis_witness :
  execution_section (fun _ => true)
    (sample_env "Buy X" (fun _ w => session_state w)) "Energy"
    (fresh ∅) =
    (Rerun, {| session_state := after_start ∅; trace := [StRerun] |}) /\
  execution_section (fun _ => false)
    (sample_env "Buy X" (fun _ w => session_state w)) "Energy"
    (fresh (after_start ∅)) =
    (Rerun,
     {| session_state :=
          reset_flags (store_result "Buy X" "Energy" (after_start ∅));
        trace := [StColumns [3; 1]; StInfo in_progress]
                 ++ events_to_kickoff "Energy"
                 ++ events_after_success "Buy X" |}).
Proof.
  apply (start_click_runs_analysis (fun _ => true) (fun _ => false)
           (sample_env "Buy X" (fun _ w => session_state w))
           (sample_env "Buy X" (fun _ w => session_state w))
           "Energy" "Energy" "Buy X" ∅).
  - vm_compute. reflexivity.
  - reflexivity.
  - reflexivity.
  - intros b w. reflexivity.
  - reflexivity.
Defined.

(** ** The decision section, further *)

Section Decision.

Lemma for_each_events {A} (l : list A) (e1 e2 : A -> event) :
  forall w,
    for_each (R:=unit) l (fun c => emit (e1 c);; emit (e2 c)) w =
      (Normal tt,
       {| session_state := session_state w;
          trace := trace w ++ flat_map (fun c => [e1 c; e2 c]) l |}).
Proof.
  induction l as [|x l IH]; intros [ss tr]; simpl.
  - rewrite app_nil_r. reflexivity.
  - cbv [mbind M_bind emit]. simpl. rewrite IH. simpl.
    rewrite <- !app_assoc. reflexivity.
Qed.

Lemma emit_bind {R B} (e : event) (k : unit -> M R B) (w : World) :
  (emit e ≫= k) w =
  k tt {| session_state := session_state w; trace := trace w ++ [e] |}.
Proof. reflexivity. Qed.

Lemma lift_bind {R A B} (a : A) (k : A -> M R B) (w : World) :
  (lift (Ok a) ≫= k) w = k a w.
Proof. reflexivity. Qed.

Lemma render_parsed (text : string) (p : parsed_decision) (w : World) :
  Str.truthy text = true ->
  parse_text_decision text = Ok p ->
  Str.truthy (selected_company p) = true ->
  render_decision (Some text) w =
    (Normal tt,
     {| session_state := session_state w;
        trace := trace w ++ decision_events text p |}).
Proof.
  intros Ht Hp Hs. destruct w as [ss tr].
  unfold render_decision, parse_call, decision_events.
  rewrite Ht, emit_bind, Hp, lift_bind, Hs, !emit_bind.
  cbv [session_state trace].
  destruct (rejected_companies p) as [|c cs] eqn:E.
  - cbv [mret M_ret]. rewrite <- !app_assoc. reflexivity.
  - rewrite !emit_bind, for_each_events. cbv [session_state trace].
    rewrite <- !app_assoc. reflexivity.
Qed.

Lemma load_markdown_cases (env : Env) (filepath : string) (w : World) :
  load_markdown_file (R:=unit) env filepath w =
    match path_exists env filepath with
    | Ok true =>
      match open_read env filepath with
      | Ok text => (Normal (Some text), w)
      | Raise e => (Normal None, with_error w (loading_error filepath e))
      end
    | Ok false => (Normal None, w)
    | Raise e => (Normal None, with_error w (loading_error filepath e))
    end.
Proof.
  unfold load_markdown_file, call, try_except, lift, emit, return_,
    with_error, loading_error.
  cbv [mbind M_bind mret M_ret].
  destruct (path_exists env filepath) as [[|]|e]; try reflexivity.
  destruct (open_read env filepath) as [text|e]; reflexivity.
Qed.

End Decision.

(** X15: for a non-empty decision text in which the parser finds a selected
    company, the decision section shows the subheader, the card, the
    company as a metric, the rationale, and then, when there are rejected
    companies, one expander per company in the order of the list, each
    with its reason; it shows nothing else and raises nothing. *)
Theorem parsed_decision_rendering (text : string) (p : parsed_decision)
    (w : World) :
  text <> EmptyString ->
  parse_text_decision text = Ok p ->
  selected_company p <> EmptyString ->
  render_decision (Some text) w =
    (Normal tt,
     {| session_state := session_state w;
        trace := trace w ++ decision_events text p |}).
Proof.
  intros Ht Hp Hs. apply render_parsed; [|exact Hp|].
  - destruct text; [congruence|reflexivity].
  - destruct (selected_company p); [congruence|reflexivity].
Qed.

Lemma parsed_decision_rendering_witness :
  render_decision
    (Some (nl "The chosen company is X."
          (nl "The companies that were not selected:" "Foo: weak")))
    empty_world =
    (Normal tt,
     {| session_state := ∅;
        trace :=
          [StSubheader "💰 Investment Decision";
           StMarkdown success_card true;
           StColumns [1; 2];
           StMetric "Company" "X";
           StWrite "**Investment Rationale:**";
           StWrite EmptyString;
           StMarkdown "---" false;
           StMarkdown "**🚫 Companies Not Selected:**" false;
           StExpander "❌ Foo";
           StWrite "weak"] |}).
Proof.
  apply (parsed_decision_rendering
           (nl "The chosen company is X."
           (nl "The companies that were not selected:" "Foo: weak"))
           {| selected_company := "X";
              selection_reason := EmptyString;
              rejected_companies := [{| name := "Foo"; reason := "weak" |}] |}
           empty_world).
  - discriminate.
  - reflexivity.
  - discriminate.
Defined.

(** X16: whatever [load_markdown_file] returned, the decision section ends
    normally, leaves the session state as it is and shows no error and no
    warning. *)
Theorem decision_section_never_fails (decision : option string)
    (w : World) :
  exists evs,
    render_decision decision w =
      (Normal tt, {| session_state := session_state w;
                     trace := trace w ++ evs |}) /\
    forall body, ~ In (StError body) evs /\ ~ In (StWarning body) evs.
Proof.
  destruct decision as [text|];
    [|exists [StInfo no_decision_yet]; split;
      [reflexivity|intros body; split; intros [H|[]]; discriminate]].
  destruct (Str.truthy text) eqn:Ht.
  2:{ exists [StInfo no_decision_yet]. unfold render_decision. rewrite Ht.
      split; [reflexivity|intros body; split; intros [H|[]]; discriminate]. }
  destruct (parse_returns text) as (p & Hp).
  destruct (Str.truthy (selected_company p)) eqn:Hs.
  - exists (decision_events text p).
    split; [apply render_parsed; assumption|].
    intros body. unfold decision_events.
    assert (F : forall l, ~ In (StError body)
                (flat_map (fun c => [StExpander ("❌ " +:+ name c);
                                     StWrite (reason c)]) l) /\
              ~ In (StWarning body)
                (flat_map (fun c => [StExpander ("❌ " +:+ name c);
                                     StWrite (reason c)]) l)).
    { induction l as [|c l [IH1 IH2]]; simpl; [tauto|].
      split; intros [H|[H|H]]; try discriminate; tauto. }
    destruct (rejected_companies p) as [|c cs].
    + simpl. split; intros H; repeat (destruct H as [H|H]; try discriminate);
        exact H.
    + specialize (F (c :: cs)). destruct F as [F1 F2].
      split; intros H; apply in_app_or in H;
        (destruct H as [H|H];
         [simpl in H; repeat (destruct H as [H|H]; try discriminate); exact H|]);
        apply in_app_or in H;
        (destruct H as [H|H];
         [simpl in H; repeat (destruct H as [H|H]; try discriminate); exact H|]);
        tauto.
  - exists [StSubheader "💰 Investment Decision"; StMarkdown text false].
    split.
    + destruct w as [ss tr].
      unfold render_decision, parse_call, lift, emit. rewrite Ht.
      cbv [mbind M_bind]. rewrite Hp, Hs. cbv [session_state trace].
      rewrite <- app_assoc. reflexivity.
    + intros body.
      split; intros H; repeat (destruct H as [H|H]; try discriminate); exact H.
Qed.

Lemma decision_section_never_fails_witness :
  exists evs,
    render_decision (Some "Hold everything.") empty_world =
      (Normal tt, {| session_state := session_state empty_world;
                     trace := trace empty_world ++ evs |}) /\
    forall body, ~ In (StError body) evs /\ ~ In (StWarning body) evs.
Proof.
  exact (decision_section_never_fails (Some "Hold everything.") empty_world).
Defined.

(** X17: when [load_markdown_file] does not come back with a non-empty
    text (the file is missing, a call raised, or the file is empty), the
    decision section shows the notice that there is no decision yet, and
    only that. *)
Theorem missing_decision_shows_notice (env : Env) (filepath : string)
    (w w1 w2 : World) (decision : option string) :
  load_markdown_file (R:=unit) env filepath w = (Normal decision, w1) ->
  (forall text,
     path_exists env filepath = Ok true ->
     open_read env filepath = Ok text -> text = EmptyString) ->
  render_decision decision w2 =
    (Normal tt, {| session_state := session_state w2;
                   trace := trace w2 ++ [StInfo no_decision_yet] |}).
Proof.
  rewrite load_markdown_cases. intros L H.
  destruct (path_exists env filepath) as [[|]|e].
  - destruct (open_read env filepath) as [text|e].
    + rewrite (H text eq_refl eq_refl) in L. injection L as <- _. reflexivity.
    + injection L as <- _. reflexivity.
  - injection L as <- _. reflexivity.
  - injection L as <- _. reflexivity.
Qed.

Lemma missing_decision_shows_notice_witness :
  render_decision None empty_world =
    (Normal tt, {| session_state := ∅; trace := [StInfo no_decision_yet] |}).
Proof.
  apply (missing_decision_shows_notice
           (sample_env "raw" cancel_while_sleeping) "output/decision.md"
           empty_world empty_world empty_world None).
  - reflexivity.
  - intros text H. discriminate H.
Defined.
